(** * asr_rank: ASRank lookup, selection, sorting and presentation

    A shallow embedding of [asr_rank.py] and the properties of its
    selector ([get_highest_rank_asn]), aggregator loop ([main]), sorter
    ([sorting_asns]) and presenter ([beautify]).

    Input type of the model.  The API answers with a JSON document of shape
    [{"data": {"asns": {"edges": [{"node": {"rank": int,
    "cone": {"numberAsns": int}}}, ...]}}}].  Every key the script
    subscripts may be absent (the subscript then raises [KeyError]); a value
    that is present has the type the schema gives it, and the two leaves are
    Python integers ([Z]).  The transport and the JSON parser belong to the
    [requests] library: the model takes their outcome (transport failure,
    unparseable body, parsed document) as the answer of the API. *)

From Stdlib Require Import ZArith List String Ascii Bool Lia.
From Stdlib Require Import Permutation Sorted DecimalString DecimalPos.
Import ListNotations.
Open Scope string_scope.
Open Scope Z_scope.
Open Scope list_scope.

(** ** Exceptions and the error monad *)

(** The exceptions the script can meet, with the classes [main]'s handler
    distinguishes.  [JSONDecodeError] is what [response.json()] raises on an
    unparseable body; [ConnectionError] is the transport error of
    [session.get]. *)
Inductive exn : Type :=
| KeyError (key : string)
| ValueError
| JSONDecodeError
| ConnectionError
| TypeError.

(** [isinstance(e, ValueError)]: [JSONDecodeError] derives from
    [ValueError]; [KeyError] derives from [LookupError], [ConnectionError]
    from [OSError], and [TypeError] stands alone. *)
Definition isinstance_ValueError (e : exn) : bool :=
  match e with
  | ValueError | JSONDecodeError => true
  | _ => false
  end.

(** [isinstance(e, LookupError)]. *)
Definition isinstance_LookupError (e : exn) : bool :=
  match e with
  | KeyError _ => true
  | _ => false
  end.

Inductive result (A : Type) : Type :=
| Ok (a : A)
| Raise (e : exn).
Arguments Ok {A} a.
Arguments Raise {A} e.

Definition rbind {A B} (r : result A) (k : A -> result B) : result B :=
  match r with
  | Ok a => k a
  | Raise e => Raise e
  end.

Notation "x <- r ;; k" := (rbind r (fun x => k))
  (at level 61, r at next level, right associativity).

(** ** The parsed API response *)

(** A dict subscript [d[key]]: the value, or [KeyError(key)]. *)
Definition subscript {A} (key : string) (d : option A) : result A :=
  match d with
  | Some v => Ok v
  | None => Raise (KeyError key)
  end.

Record Cone := { numberAsns : option Z }.
Record Node := { rank : option Z; cone : option Cone }.
Record Edge := { node : option Node }.
Record Asns := { edges : option (list Edge) }.
Record Data := { asns : option Asns }.
Record Body := { data : option Data }.

(** What one GET gives: the transport fails, the body is not JSON, or the
    body parses to a document. *)
Inductive http : Type :=
| NetworkFailure
| MalformedBody
| JsonBody (body : Body).

(** The API as the script sees it: an answer per organization name. *)
Definition api := string -> http.

(** A Python value a result tuple can hold: [None] or an integer. *)
Inductive pyval : Type :=
| PyNone
| PyInt (z : Z).

(** ** get_highest_rank_asn *)

(** [session.get(...)] followed by [response.json()].  [NetworkFailure]
    is a connection that fails, which [requests] reports with
    [ConnectionError]; a [session.get] that turns the request down before
    sending it (an invalid URL or proxy setting) is not among the answers
    of the model. *)
Definition session_get_json (server : api) (organization : string)
  : result Body :=
  match server organization with
  | NetworkFailure => Raise ConnectionError
  | MalformedBody => Raise JSONDecodeError
  | JsonBody body => Ok body
  end.

(** [node['node']['rank']]. *)
Definition node_rank (e : Edge) : result Z :=
  n <- subscript "node" (node e) ;;
  subscript "rank" (rank n).

(** [node['node']['cone']['numberAsns']]. *)
Definition node_cone_numberAsns (e : Edge) : result Z :=
  n <- subscript "node" (node e) ;;
  c <- subscript "cone" (cone n) ;;
  subscript "numberAsns" (numberAsns c).

(** [min(node['node']['rank'] for node in edges)]: the generator is consumed
    one item at a time, [current] is the least rank so far ([None] before
    the first item), an item replaces it when it is strictly smaller, and an
    exhausted generator with nothing seen raises [ValueError]. *)
Fixpoint py_min_rank (es : list Edge) (current : option Z) : result Z :=
  match es with
  | [] =>
      match current with
      | Some m => Ok m
      | None => Raise ValueError
      end
  | e :: rest =>
      r <- node_rank e ;;
      py_min_rank rest
        (Some (match current with
               | None => r
               | Some m => if r <? m then r else m
               end))
  end.

(** The [for node in asns['asns']['edges']] loop, [conesize] threaded
    through. *)
Fixpoint scan_conesize (es : list Edge) (highest_rank : Z) (conesize : pyval)
  : result pyval :=
  match es with
  | [] => Ok conesize
  | e :: rest =>
      r <- node_rank e ;;
      if r =? highest_rank
      then c <- node_cone_numberAsns e ;;
           scan_conesize rest highest_rank (PyInt c)
      else scan_conesize rest highest_rank conesize
  end.

Definition get_highest_rank_asn (server : api) (organization : string)
  : result (pyval * pyval) :=
  body <- session_get_json server organization ;;
  asns_ <- subscript "data" (data body) ;;
  let conesize := PyNone in
  a <- subscript "asns" (asns asns_) ;;
  es <- subscript "edges" (edges a) ;;
  highest_rank <- py_min_rank es None ;;
  a' <- subscript "asns" (asns asns_) ;;
  es' <- subscript "edges" (edges a') ;;
  conesize <- scan_conesize es' highest_rank conesize ;;
  Ok (PyInt highest_rank, conesize).

(** ** sorting_asns *)

(** An entry of [results]: [(organization, asrank, conesize)]. *)
Definition result_tuple : Type := string * pyval * pyval.

(** [x[index]] for the two indexes [sorting_asns] uses. *)
Definition tuple_item (index : nat) (x : result_tuple) : pyval :=
  match x with
  | (_, asrank, conesize) =>
      match index with
      | 1%nat => asrank
      | _ => conesize
      end
  end.

(** [a < b] on keys: integers compare, [None] is unorderable. *)
Definition py_lt (a b : pyval) : result bool :=
  match a, b with
  | PyInt x, PyInt y => Ok (x <? y)
  | _, _ => Raise TypeError
  end.

(** [sorted(results, key=..., reverse=...)].  [list.sort] is a stable sort
    that only asks [<] of the keys; with [reverse] it reverses the list,
    sorts it the same way and reverses the outcome, which keeps equal keys
    in input order.  The stable sort is written as an insertion sort: an
    element goes after the sorted entries whose key is strictly smaller and
    before the others. *)
Section PySorted.
Variable key : result_tuple -> pyval.

Fixpoint insert_stable (x : result_tuple) (l : list result_tuple)
  : result (list result_tuple) :=
  match l with
  | [] => Ok [x]
  | y :: l' =>
      b <- py_lt (key y) (key x) ;;
      if b
      then (l'' <- insert_stable x l' ;; Ok (y :: l''))
      else Ok (x :: y :: l')
  end.

Fixpoint stable_sort (l : list result_tuple) : result (list result_tuple) :=
  match l with
  | [] => Ok []
  | x :: l' => s <- stable_sort l' ;; insert_stable x s
  end.

Definition py_sorted (l : list result_tuple) (reverse : bool)
  : result (list result_tuple) :=
  if reverse
  then (s <- stable_sort (rev l) ;; Ok (rev s))
  else stable_sort l.
End PySorted.

Definition sorting_asns (results : list result_tuple) (metric order : string)
  : result (list result_tuple) :=
  let order_flag := if String.eqb order "descending" then true else false in
  let index := if String.eqb metric "asrank" then 1%nat else 2%nat in
  let sorted_results := py_sorted (fun x => tuple_item index x) results order_flag in
  sorted_results.

(** ** Standard output *)

(** A computation that prints: the lines printed so far go in, the value
    or the exception comes out with the lines printed by then. *)
Definition M (A : Type) : Type := list string -> result A * list string.

Definition ret {A} (a : A) : M A := fun out => (Ok a, out).

Definition bind {A B} (m : M A) (k : A -> M B) : M B :=
  fun out =>
    match m out with
    | (Ok a, out') => k a out'
    | (Raise e, out') => (Raise e, out')
    end.

Definition lift {A} (r : result A) : M A := fun out => (r, out).

Definition print (line : string) : M unit := fun out => (Ok tt, out ++ [line]).

Notation "x <~ m ;; k" := (bind m (fun x => k))
  (at level 61, m at next level, right associativity).
Notation "m ;;; k" := (bind m (fun _ => k))
  (at level 61, right associativity).

(** [try: body / except ValueError: handler]. *)
Definition try_except_ValueError {A} (body handler : M A) : M A :=
  fun out =>
    match body out with
    | (Raise e, out') =>
        if isinstance_ValueError e then handler out' else (Raise e, out')
    | done => done
    end.

(** ** beautify *)

Fixpoint str_mul (c : ascii) (n : nat) : string :=
  match n with
  | O => EmptyString
  | S n' => String c (str_mul c n')
  end.

Definition spaces (n : nat) : string := str_mul " "%char n.

(** [format(s, '^{width}s')]: the padding is split with the odd space on
    the right; a longer string is left whole. *)
Definition format_center (width : nat) (s : string) : string :=
  let padding := (width - String.length s)%nat in
  let left := Nat.div padding 2 in
  (spaces left ++ s ++ spaces (padding - left))%string.

(** [format(s, '{width}s')]: strings are left-aligned. *)
Definition format_str (width : nat) (s : string) : string :=
  (s ++ spaces (width - String.length s))%string.

(** [str(z)] for an integer, in decimal with a [-] for negatives. *)
Definition decimal (z : Z) : string := NilZero.string_of_int (Z.to_int z).

(** [format(v, '{width}d')]: integers are right-aligned decimals; [None]
    does not take a format specification. *)
Definition format_d (width : nat) (v : pyval) : result string :=
  match v with
  | PyInt z =>
      let s := decimal z in
      Ok (spaces (width - String.length s) ++ s)%string
  | PyNone => Raise TypeError
  end.

(** [f"{result[0]:10s} {result[1]:10d} {result[2]:10d}"]. *)
Definition format_row (r : result_tuple) : result string :=
  match r with
  | (organization, asrank, conesize) =>
      f1 <- format_d 10 asrank ;;
      f2 <- format_d 10 conesize ;;
      Ok (format_str 10 organization ++ " " ++ f1 ++ " " ++ f2)%string
  end.

Fixpoint print_rows (results : list result_tuple) : M unit :=
  match results with
  | [] => ret tt
  | r :: rest =>
      line <~ lift (format_row r) ;;
      print line ;;;
      print_rows rest
  end.

Definition beautify (results : list result_tuple) : M unit :=
  print (format_center 10 "Organization" ++ " " ++ format_center 10 "ASRank"
         ++ " " ++ format_center 10 "ConeSize")%string ;;;
  print (str_mul "-"%char 35) ;;;
  print_rows results.

(** ** main *)

Definition ORGANIZATIONS : list string :=
  ["Zenlayer"; "Equinix"; "Linode"; "Ionos"; "PhoenixNap"].

Definition diagnostic (organization : string) : string :=
  ("the following " ++ organization ++ " does not have information!")%string.

(** The [for organization in ORGANIZATIONS] loop of [main], over the
    organizations still to visit. *)
Fixpoint aggregate (server : api) (orgs : list string)
    (results : list result_tuple) : M (list result_tuple) :=
  match orgs with
  | [] => ret results
  | organization :: rest =>
      results' <~ try_except_ValueError
                    (p <~ lift (get_highest_rank_asn server organization) ;;
                     let '(asrank, conesize) := p in
                     ret (results ++ [(organization, asrank, conesize)]))
                    (print (diagnostic organization) ;;; ret results) ;;
      aggregate server rest results'
  end.

(** [main], after [parse_args] has accepted [--sort_by] and [--order]. *)
Definition main (server : api) (sort_by order : string) : M unit :=
  results <~ aggregate server ORGANIZATIONS [] ;;
  sorted_results <~ lift (sorting_asns results sort_by order) ;;
  beautify sorted_results.

(** ** Fixtures *)

(** A well-formed raw AS record: every key present. *)
Definition raw_record (r c : Z) : Edge :=
  {| node := Some {| rank := Some r;
                     cone := Some {| numberAsns := Some c |} |} |}.

Definition body_of_edges (es : list Edge) : Body :=
  {| data := Some {| asns := Some {| edges := Some es |} |} |}.

Definition sample_server : api := fun organization =>
  if String.eqb organization "Linode"
  then JsonBody (body_of_edges [raw_record 6949 2; raw_record 9000 1])
  else if String.eqb organization "Equinix"
  then JsonBody (body_of_edges [raw_record 200 232])
  else if String.eqb organization "Ionos"
  then JsonBody (body_of_edges [])
  else if String.eqb organization "Zenlayer"
  then MalformedBody
  else JsonBody (body_of_edges [raw_record 627 60; raw_record 627 61]).

(** The typed view of the data model: a raw AS record is a
    [(rank, cone size)] pair, an Organization Result a triple of a name and
    two integers. *)
Abbreviation as_record := (Z * Z)%type.
Definition org_result : Type := string * Z * Z.

Definition edge_of (r : as_record) : Edge := raw_record (fst r) (snd r).

Definition to_tuple (r : org_result) : result_tuple :=
  match r with
  | (organization, asrank, conesize) => (organization, PyInt asrank, PyInt conesize)
  end.

(** The key selectors and directions of the command line, with the words
    [--sort_by] and [--order] accept for them and the field a selector
    names. *)
Inductive sort_key : Type := asrank | cone_size.
Inductive direction : Type := ascending | descending.

Definition metric_name (k : sort_key) : string :=
  match k with
  | asrank => "asrank"
  | cone_size => "cone_size"
  end.

Definition order_name (d : direction) : string :=
  match d with
  | ascending => "ascending"
  | descending => "descending"
  end.

Definition selected_field (k : sort_key) (r : org_result) : Z :=
  match r, k with
  | (_, rank_, _), asrank => rank_
  | (_, _, cone_), cone_size => cone_
  end.

(** The results whose selected field has the value [v], in list order. *)
Definition with_value (k : sort_key) (v : Z) (rs : list org_result)
  : list org_result :=
  filter (fun r => selected_field k r =? v) rs.

(** The insertion sort on integer keys that [py_sorted] computes on
    Organization Results; it only serves the proofs. *)
Section IntSort.
Variable key : org_result -> Z.

Fixpoint insert_int (x : org_result) (l : list org_result) : list org_result :=
  match l with
  | [] => [x]
  | y :: l' => if key y <? key x then y :: insert_int x l' else x :: y :: l'
  end.

Fixpoint sort_int (l : list org_result) : list org_result :=
  match l with
  | [] => []
  | x :: l' => insert_int x (sort_int l')
  end.
End IntSort.

(** The order [sorting_asns] gives Organization Results: the insertion sort
    for [ascending], and for [descending] the reverse of the sorted reverse. *)
Definition sorted_by (k : sort_key) (d : direction) (rs : list org_result)
  : list org_result :=
  match d with
  | ascending => sort_int (selected_field k) rs
  | descending => rev (sort_int (selected_field k) (rev rs))
  end.

(** The selected field runs non-decreasing ([ascending]) or non-increasing
    ([descending]) along the list. *)
Definition in_order (k : sort_key) (d : direction) (rs : list org_result)
  : Prop :=
  match d with
  | ascending => StronglySorted Z.le (map (selected_field k) rs)
  | descending => StronglySorted Z.ge (map (selected_field k) rs)
  end.

(** Field layouts, as the format specifications describe them, stated of
    the characters of the field: the text with blanks around it up to the
    width, and the text alone when it is at least as wide. *)
Definition blank (s : string) : Prop :=
  forall n c, String.get n s = Some c -> c = " "%char.

Definition centered_in (width : nat) (text field : string) : Prop :=
  exists l r : string,
    field = (l ++ text ++ r)%string /\
    blank l /\ blank r /\
    String.length field = Nat.max width (String.length text) /\
    (String.length l <= String.length r <= String.length l + 1)%nat.

Definition left_justified_in (width : nat) (text field : string) : Prop :=
  exists r : string,
    field = (text ++ r)%string /\
    blank r /\
    String.length field = Nat.max width (String.length text).

Definition right_justified_in (width : nat) (text field : string) : Prop :=
  exists l : string,
    field = (l ++ text)%string /\
    blank l /\
    String.length field = Nat.max width (String.length text).

(** Decimal numerals, read digit by digit: the value of a string of
    digits, most significant first, and what it takes for a string to be
    the numeral of an integer: its digits have that value, there is a
    leading [0] only in [0] itself, and a [-] comes first exactly for a
    negative integer. *)
Definition digit_value (c : ascii) : option Z :=
  let code := Z.of_N (N_of_ascii c) in
  if (48 <=? code) && (code <=? 57) then Some (code - 48) else None.

Fixpoint digits_value (s : string) (acc : Z) : option Z :=
  match s with
  | EmptyString => Some acc
  | String c s' =>
      match digit_value c with
      | Some d => digits_value s' (10 * acc + d)
      | None => None
      end
  end.

Definition canonical_digits (s : string) : bool :=
  match s with
  | EmptyString => false
  | String c EmptyString => true
  | String c _ => negb (Ascii.eqb c "0"%char)
  end.

Definition decimal_numeral (z : Z) (s : string) : Prop :=
  exists digits : string,
    canonical_digits digits = true /\
    ((0 <= z /\ s = digits /\ digits_value digits 0 = Some z) \/
     (z < 0 /\ s = String "-" digits /\ digits_value digits 0 = Some (- z))).

Definition is_header (line : string) : Prop :=
  exists f1 f2 f3 : string,
    line = (f1 ++ " " ++ f2 ++ " " ++ f3)%string /\
    centered_in 10 "Organization" f1 /\
    centered_in 10 "ASRank" f2 /\
    centered_in 10 "ConeSize" f3.

Definition is_rule (line : string) : Prop :=
  String.length line = 35%nat /\
  forall n c, String.get n line = Some c -> c = "-"%char.

Definition is_row (r : org_result) (line : string) : Prop :=
  match r with
  | (organization, asrank_, conesize_) =>
      exists f1 f2 f3 d2 d3 : string,
        line = (f1 ++ " " ++ f2 ++ " " ++ f3)%string /\
        left_justified_in 10 organization f1 /\
        decimal_numeral asrank_ d2 /\
        right_justified_in 10 d2 f2 /\
        decimal_numeral conesize_ d3 /\
        right_justified_in 10 d3 f3
  end.

(** The line [beautify] prints for an Organization Result. *)
Definition row_line (r : org_result) : string :=
  match r with
  | (organization, asrank_, conesize_) =>
      (format_str 10 organization ++ " "
       ++ (spaces (10 - String.length (decimal asrank_)) ++ decimal asrank_)
       ++ " "
       ++ (spaces (10 - String.length (decimal conesize_)) ++ decimal conesize_))%string
  end.

Definition header_line : string := "Organization   ASRank    ConeSize ".
Definition rule_line : string := "-----------------------------------".

(** What the aggregator loop keeps and what it reports, organization by
    organization. *)
Definition collected (server : api) (orgs : list string) : list result_tuple :=
  flat_map (fun organization =>
              match get_highest_rank_asn server organization with
              | Ok (asrank_, conesize_) => [(organization, asrank_, conesize_)]
              | Raise _ => []
              end) orgs.

Definition diagnostics (server : api) (orgs : list string) : list string :=
  flat_map (fun organization =>
              match get_highest_rank_asn server organization with
              | Ok _ => []
              | Raise _ => [diagnostic organization]
              end) orgs.

(** The ways the fetch of one organization fails, with the exception each
    one raises. *)
Inductive fetch_failure : http -> exn -> Prop :=
| network_call_fails : fetch_failure NetworkFailure ConnectionError
| json_malformed : fetch_failure MalformedBody JSONDecodeError
| data_absent body :
    data body = None -> fetch_failure (JsonBody body) (KeyError "data")
| asns_absent body d :
    data body = Some d -> asns d = None ->
    fetch_failure (JsonBody body) (KeyError "asns")
| edges_absent body d a :
    data body = Some d -> asns d = Some a -> edges a = None ->
    fetch_failure (JsonBody body) (KeyError "edges").

(** Servers for the examples. *)
Definition no_records_server : api := fun _ => JsonBody (body_of_edges []).

Definition missing_data_server : api := fun _ => JsonBody {| data := None |}.

Definition outage_server : api := fun organization =>
  if String.eqb organization "Zenlayer" then MalformedBody
  else if String.eqb organization "Equinix" then NetworkFailure
  else JsonBody (body_of_edges [raw_record 725 49]).

(** A record whose node has a rank and no [cone] key. *)
Definition record_without_cone (r : Z) : Edge :=
  {| node := Some {| rank := Some r; cone := None |} |}.

(** A server that answers every name with the given edges. *)
Definition server_of_edges (es : list Edge) : api :=
  fun _ => JsonBody (body_of_edges es).

(** Whether the lookup of an organization returns. *)
Definition answered (server : api) (organization : string) : bool :=
  match get_highest_rank_asn server organization with
  | Ok _ => true
  | Raise _ => false
  end.

(** [result[0]]. *)
Definition organization_of (t : result_tuple) : string := fst (fst t).

(** Whether the key [x[index]] of a result is [None], and whether a list
    has two results or more and such a key among them. *)
Definition key_is_None (index : nat) (t : result_tuple) : bool :=
  match tuple_item index t with
  | PyNone => true
  | PyInt _ => false
  end.

Definition unorderable (index : nat) (results : list result_tuple) : bool :=
  (2 <=? List.length results)%nat && existsb (key_is_None index) results.

(** ** The selector *)

Lemma node_rank_edge_of (r : as_record) : node_rank (edge_of r) = Ok (fst r).
Proof. reflexivity. Qed.

Lemma node_cone_edge_of (r : as_record) :
  node_cone_numberAsns (edge_of r) = Ok (snd r).
Proof. reflexivity. Qed.

(** Whatever [min] returns is the start value or the rank of an item, and
    bounds both from below. *)
Lemma py_min_rank_sound (es : list Edge) :
  forall current m,
    py_min_rank es current = Ok m ->
    (current = Some m \/ exists e, In e es /\ node_rank e = Ok m) /\
    (forall c, current = Some c -> m <= c) /\
    (forall e, In e es -> exists r, node_rank e = Ok r /\ m <= r).
Proof.
  induction es as [|e rest IH]; intros current m H; simpl in H.
  - destruct current as [c|]; [|discriminate].
    injection H as ->. repeat split.
    + now left.
    + intros c' [= ->]. lia.
    + intros e [].
  - destruct (node_rank e) as [r|x] eqn:Er; simpl in H; [|discriminate].
    apply IH in H. destruct H as (Hin & Hle & Hall).
    assert (Hm : m <= r /\ forall c, current = Some c -> m <= c).
    { destruct current as [c|].
      - specialize (Hle _ eq_refl).
        destruct (r <? c) eqn:E; [apply Z.ltb_lt in E|apply Z.ltb_ge in E];
          split; try lia; intros c' [= <-]; lia.
      - specialize (Hle _ eq_refl). split; [lia|discriminate]. }
    destruct Hm as [Hmr Hmc]. repeat split.
    + destruct Hin as [Hin|(e' & He' & Hr')].
      * destruct current as [c|].
        -- destruct (r <? c) eqn:E; injection Hin as <-.
           ++ right. exists e. split; [now left|assumption].
           ++ now left.
        -- injection Hin as <-. right. exists e. split; [now left|assumption].
      * right. exists e'. split; [now right|assumption].
    + exact Hmc.
    + intros e' [<-|He']; [exists r; now split|now apply Hall].
Qed.

(** [min] returns as soon as every item has a rank and there is an item or
    a start value. *)
Lemma py_min_rank_total (es : list Edge) :
  forall current,
    (forall e, In e es -> exists r, node_rank e = Ok r) ->
    current <> None \/ es <> [] ->
    exists m, py_min_rank es current = Ok m.
Proof.
  induction es as [|e rest IH]; intros current Hall Hne; simpl.
  - destruct current as [c|]; [now exists c|]. destruct Hne; congruence.
  - destruct (Hall e (or_introl eq_refl)) as [r ->]. simpl.
    apply IH; [intros e' He'; apply Hall; now right|left; discriminate].
Qed.

Lemma scan_conesize_app (l1 l2 : list Edge) (m : Z) :
  forall c0,
    scan_conesize (l1 ++ l2) m c0 =
    (c <- scan_conesize l1 m c0 ;; scan_conesize l2 m c).
Proof.
  induction l1 as [|e l1 IH]; intros c0; simpl; [reflexivity|].
  destruct (node_rank e) as [r|x]; simpl; [|reflexivity].
  destruct (r =? m); [|apply IH].
  destruct (node_cone_numberAsns e) as [c|x]; simpl; [apply IH|reflexivity].
Qed.

(** On well-formed records the scan never raises. *)
Lemma scan_conesize_total (recs : list as_record) (m : Z) :
  forall c0, exists c, scan_conesize (map edge_of recs) m c0 = Ok c.
Proof.
  induction recs as [|r recs IH]; intros c0; simpl; [now exists c0|].
  destruct (fst r =? m); apply IH.
Qed.

(** Records of another rank leave [conesize] as it is. *)
Lemma scan_conesize_no_match (recs : list as_record) (m : Z) :
  forall c0,
    (forall x, In x recs -> fst x <> m) ->
    scan_conesize (map edge_of recs) m c0 = Ok c0.
Proof.
  induction recs as [|r recs IH]; intros c0 H; simpl; [reflexivity|].
  destruct (fst r =? m) eqn:E.
  - apply Z.eqb_eq in E. exfalso. apply (H r); [now left|assumption].
  - apply IH. intros x Hx. apply H. now right.
Qed.

(** The scan of a list whose last record of rank [m] is [(m, c)]. *)
Lemma scan_conesize_last (l1 l2 : list as_record) (m c : Z) (c0 : pyval) :
  (forall x, In x l2 -> fst x <> m) ->
  scan_conesize (map edge_of (l1 ++ (m, c) :: l2)) m c0 = Ok (PyInt c).
Proof.
  intros H. rewrite map_app, scan_conesize_app.
  destruct (scan_conesize_total l1 m c0) as [c1 ->]. simpl.
  rewrite Z.eqb_refl. now apply scan_conesize_no_match.
Qed.

(** A rank that occurs has a last occurrence. *)
Lemma last_occurrence (recs : list as_record) (m : Z) :
  In m (map fst recs) ->
  exists l1 c l2,
    recs = l1 ++ (m, c) :: l2 /\ forall x, In x l2 -> fst x <> m.
Proof.
  induction recs as [|[r c] recs IH]; simpl; [intros []|].
  intros H. destruct (in_dec Z.eq_dec m (map fst recs)) as [Hin|Hnot].
  - destruct (IH Hin) as (l1 & c' & l2 & -> & Hl2).
    exists ((r, c) :: l1), c', l2. now split.
  - destruct H as [->|H]; [|contradiction].
    exists [], c, recs. split; [reflexivity|].
    intros x Hx E. apply Hnot. rewrite <- E. now apply in_map.
Qed.

(** [get_highest_rank_asn] on a well-formed response is the two passes over
    its edges. *)
Lemma get_highest_rank_asn_edges (server : api) (organization : string)
    (es : list Edge) :
  server organization = JsonBody (body_of_edges es) ->
  get_highest_rank_asn server organization =
  (highest_rank <- py_min_rank es None ;;
   conesize <- scan_conesize es highest_rank PyNone ;;
   Ok (PyInt highest_rank, conesize)).
Proof.
  intros H. unfold get_highest_rank_asn, session_get_json. now rewrite H.
Qed.

Lemma py_min_rank_records (recs : list as_record) :
  recs <> [] ->
  exists m,
    py_min_rank (map edge_of recs) None = Ok m /\
    In m (map fst recs) /\
    forall r, In r (map fst recs) -> m <= r.
Proof.
  intros Hne.
  destruct (py_min_rank_total (map edge_of recs) None) as [m Hm].
  - intros e He. apply in_map_iff in He. destruct He as (r & <- & _).
    now exists (fst r).
  - right. destruct recs; [congruence|discriminate].
  - exists m. split; [exact Hm|].
    apply py_min_rank_sound in Hm. destruct Hm as (Hin & _ & Hall). split.
    + destruct Hin as [Hin|(e & He & Hr)]; [discriminate|].
      apply in_map_iff in He. destruct He as (r & <- & Hr').
      rewrite node_rank_edge_of in Hr. injection Hr as <-. now apply in_map.
    + intros r Hr. apply in_map_iff in Hr. destruct Hr as (x & <- & Hx).
      destruct (Hall (edge_of x)) as (r' & Hr' & Hle); [now apply in_map|].
      rewrite node_rank_edge_of in Hr'. injection Hr' as <-. exact Hle.
Qed.

(** ** The sorter *)

Section IntSortFacts.
Variable key : org_result -> Z.

Lemma insert_int_perm (x : org_result) (l : list org_result) :
  Permutation (x :: l) (insert_int key x l).
Proof.
  induction l as [|y l IH]; simpl; [reflexivity|].
  destruct (key y <? key x); [|reflexivity].
  rewrite perm_swap. now constructor.
Qed.

Lemma sort_int_perm (l : list org_result) : Permutation l (sort_int key l).
Proof.
  induction l as [|x l IH]; simpl; [constructor|].
  rewrite <- insert_int_perm. now constructor.
Qed.

Lemma insert_int_sorted (x : org_result) (l : list org_result) :
  StronglySorted Z.le (map key l) ->
  StronglySorted Z.le (map key (insert_int key x l)).
Proof.
  induction l as [|y l IH]; simpl; intros H.
  - repeat constructor.
  - inversion H as [|? ? Hs Hf]; subst.
    destruct (key y <? key x) eqn:E; simpl.
    + apply Z.ltb_lt in E. constructor; [now apply IH|].
      rewrite Forall_forall in *. intros z Hz.
      apply in_map_iff in Hz. destruct Hz as (r & <- & Hr).
      apply (Permutation_in _ (Permutation_sym (insert_int_perm x l))) in Hr.
      destruct Hr as [<-|Hr]; [lia|]. apply Hf. now apply in_map.
    + apply Z.ltb_ge in E. constructor; [exact H|].
      constructor; [exact E|].
      rewrite Forall_forall in *. intros z Hz. specialize (Hf z Hz). lia.
Qed.

Lemma sort_int_sorted (l : list org_result) :
  StronglySorted Z.le (map key (sort_int key l)).
Proof.
  induction l as [|x l IH]; simpl; [constructor|now apply insert_int_sorted].
Qed.

(** Insertion never moves an entry past one of the same key. *)
Lemma insert_int_filter (v : Z) (x : org_result) (l : list org_result) :
  filter (fun r => key r =? v) (insert_int key x l) =
  filter (fun r => key r =? v) (x :: l).
Proof.
  induction l as [|y l IH]; [reflexivity|].
  simpl insert_int. destruct (key y <? key x) eqn:E; [|reflexivity].
  apply Z.ltb_lt in E. simpl in *. rewrite IH.
  destruct (key y =? v) eqn:Ey, (key x =? v) eqn:Ex; try reflexivity.
  apply Z.eqb_eq in Ey, Ex. lia.
Qed.

Lemma sort_int_filter (v : Z) (l : list org_result) :
  filter (fun r => key r =? v) (sort_int key l) =
  filter (fun r => key r =? v) l.
Proof.
  induction l as [|x l IH]; [reflexivity|].
  simpl sort_int. rewrite insert_int_filter. simpl. now rewrite IH.
Qed.

Lemma sort_int_fixpoint (l : list org_result) :
  StronglySorted Z.le (map key l) -> sort_int key l = l.
Proof.
  induction l as [|x l IH]; simpl; intros H; [reflexivity|].
  inversion H as [|? ? Hs Hf]; subst. rewrite (IH Hs).
  destruct l as [|y l]; [reflexivity|]. simpl.
  inversion Hf as [|? ? Hxy _]; subst.
  apply Z.ltb_ge in Hxy. now rewrite Hxy.
Qed.

Lemma sort_int_idempotent (l : list org_result) :
  sort_int key (sort_int key l) = sort_int key l.
Proof. apply sort_int_fixpoint, sort_int_sorted. Qed.
End IntSortFacts.

Lemma StronglySorted_snoc (R : Z -> Z -> Prop) (l : list Z) (x : Z) :
  StronglySorted R l -> Forall (fun y => R y x) l ->
  StronglySorted R (l ++ [x]).
Proof.
  induction l as [|y l IH]; simpl; intros Hs Hf.
  - repeat constructor.
  - inversion Hs; subst. inversion Hf; subst.
    constructor; [now apply IH|].
    apply Forall_app. split; [assumption|now constructor].
Qed.

(** Reversing a non-decreasing sequence gives a non-increasing one. *)
Lemma StronglySorted_rev_ge (l : list Z) :
  StronglySorted Z.le l -> StronglySorted Z.ge (rev l).
Proof.
  induction l as [|x l IH]; simpl; intros H; [constructor|].
  inversion H as [|? ? Hs Hf]; subst.
  apply StronglySorted_snoc; [now apply IH|].
  apply Forall_rev. rewrite Forall_forall in *. intros y Hy.
  specialize (Hf y Hy). lia.
Qed.

Lemma StronglySorted_rev_le (l : list Z) :
  StronglySorted Z.ge l -> StronglySorted Z.le (rev l).
Proof.
  induction l as [|x l IH]; simpl; intros H; [constructor|].
  inversion H as [|? ? Hs Hf]; subst.
  apply StronglySorted_snoc; [now apply IH|].
  apply Forall_rev. rewrite Forall_forall in *. intros y Hy.
  specialize (Hf y Hy). lia.
Qed.

(** On Organization Results the keys are integers, [<] never raises and
    [py_sorted] is the integer insertion sort. *)
Section SortedOnResults.
Variable index : nat.
Variable key : org_result -> Z.
Hypothesis tuple_item_to_tuple :
  forall r, tuple_item index (to_tuple r) = PyInt (key r).

Lemma insert_stable_results (x : org_result) (l : list org_result) :
  insert_stable (tuple_item index) (to_tuple x) (map to_tuple l) =
  Ok (map to_tuple (insert_int key x l)).
Proof.
  induction l as [|y l IH]; [reflexivity|].
  simpl. rewrite !tuple_item_to_tuple. simpl.
  destruct (key y <? key x); [|reflexivity].
  now rewrite IH.
Qed.

Lemma stable_sort_results (l : list org_result) :
  stable_sort (tuple_item index) (map to_tuple l) =
  Ok (map to_tuple (sort_int key l)).
Proof.
  induction l as [|x l IH]; [reflexivity|].
  simpl. rewrite IH. simpl. apply insert_stable_results.
Qed.

Lemma py_sorted_results (l : list org_result) (reverse : bool) :
  py_sorted (tuple_item index) (map to_tuple l) reverse =
  Ok (map to_tuple (if reverse then rev (sort_int key (rev l))
                    else sort_int key l)).
Proof.
  unfold py_sorted. destruct reverse.
  - rewrite <- map_rev, stable_sort_results. simpl. now rewrite map_rev.
  - apply stable_sort_results.
Qed.
End SortedOnResults.

Lemma tuple_item_selected (k : sort_key) (r : org_result) :
  tuple_item (if String.eqb (metric_name k) "asrank" then 1 else 2)
    (to_tuple r) = PyInt (selected_field k r).
Proof. destruct k, r as [[o a] c]; reflexivity. Qed.

(** What [sorting_asns] returns for a selector and a direction of the
    command line. *)
Lemma sorting_asns_results (k : sort_key) (d : direction)
    (rs : list org_result) :
  sorting_asns (map to_tuple rs) (metric_name k) (order_name d) =
  Ok (map to_tuple (sorted_by k d rs)).
Proof.
  unfold sorting_asns, sorted_by.
  destruct d; exact (py_sorted_results _ _ (tuple_item_selected k) rs _).
Qed.

Lemma sorted_by_perm (k : sort_key) (d : direction) (rs : list org_result) :
  Permutation rs (sorted_by k d rs).
Proof.
  destruct d; simpl.
  - apply sort_int_perm.
  - rewrite <- Permutation_rev, <- sort_int_perm. apply Permutation_rev.
Qed.

Lemma sorted_by_in_order (k : sort_key) (d : direction)
    (rs : list org_result) :
  in_order k d (sorted_by k d rs).
Proof.
  destruct d; simpl.
  - apply sort_int_sorted.
  - rewrite map_rev. apply StronglySorted_rev_ge, sort_int_sorted.
Qed.

Lemma sorted_by_with_value (k : sort_key) (d : direction) (v : Z)
    (rs : list org_result) :
  with_value k v (sorted_by k d rs) = with_value k v rs.
Proof.
  unfold with_value. destruct d; simpl.
  - apply sort_int_filter.
  - now rewrite filter_rev, sort_int_filter, filter_rev, rev_involutive.
Qed.

(** A list already in the order asked for comes back as it is. *)
Lemma sorted_by_fixpoint (k : sort_key) (d : direction)
    (rs : list org_result) :
  in_order k d rs -> sorted_by k d rs = rs.
Proof.
  destruct d; simpl; intros H.
  - now apply sort_int_fixpoint.
  - rewrite sort_int_fixpoint; [apply rev_involutive|].
    rewrite map_rev. now apply StronglySorted_rev_le.
Qed.

(** ** The presenter *)

Lemma length_str_mul (c : ascii) (n : nat) : String.length (str_mul c n) = n.
Proof. induction n; simpl; congruence. Qed.

Lemma length_append (s1 s2 : string) :
  String.length (s1 ++ s2)%string = (String.length s1 + String.length s2)%nat.
Proof. induction s1 as [|c s1 IH]; simpl; [reflexivity|now rewrite IH]. Qed.

Lemma blank_spaces (n : nat) : blank (spaces n).
Proof.
  unfold blank, spaces. induction n as [|n IH]; simpl; intros k c H.
  - discriminate.
  - destruct k as [|k]; [now injection H as <-|now apply (IH k)].
Qed.

Lemma format_center_centered (width : nat) (s : string) :
  centered_in width s (format_center width s).
Proof.
  unfold centered_in, format_center.
  exists (spaces (Nat.div (width - String.length s) 2)),
         (spaces (width - String.length s
                  - Nat.div (width - String.length s) 2)).
  split; [reflexivity|].
  split; [apply blank_spaces|]. split; [apply blank_spaces|].
  unfold spaces. rewrite !length_append, !length_str_mul.
  pose proof (Nat.div_mod_eq (width - String.length s) 2) as E.
  pose proof (Nat.mod_upper_bound (width - String.length s) 2) as U.
  lia.
Qed.

Lemma format_str_left (width : nat) (s : string) :
  left_justified_in width s (format_str width s).
Proof.
  exists (spaces (width - String.length s)). split; [reflexivity|].
  split; [apply blank_spaces|].
  unfold format_str, spaces. rewrite length_append, length_str_mul. lia.
Qed.

Lemma rjust_right (width : nat) (s : string) :
  right_justified_in width s (spaces (width - String.length s) ++ s)%string.
Proof.
  exists (spaces (width - String.length s)). split; [reflexivity|].
  split; [apply blank_spaces|].
  unfold spaces. rewrite length_append, length_str_mul. lia.
Qed.

(** [decimal] writes the numeral of its argument. *)
Lemma digits_value_of_uint_acc (d : Decimal.uint) :
  forall p,
    digits_value (NilEmpty.string_of_uint d) (Z.pos p) =
    Some (Z.pos (Pos.of_uint_acc d p)).
Proof.
  induction d; intros p;
    cbn [NilEmpty.string_of_uint digits_value Pos.of_uint_acc];
    try reflexivity.
  all: match goal with
       | |- context [digit_value ?c] =>
           let v := eval cbv in (digit_value c) in
           change (digit_value c) with v
       end.
  all: cbv iota; rewrite <- IHd; f_equal; lia.
Qed.

Lemma digits_value_of_uint (d : Decimal.uint) :
  digits_value (NilEmpty.string_of_uint d) 0 = Some (Z.of_N (Pos.of_uint d)).
Proof.
  induction d; simpl; try reflexivity; try exact IHd;
    apply digits_value_of_uint_acc.
Qed.

Lemma nzhead_not_D0 (d u : Decimal.uint) : Decimal.nzhead d <> Decimal.D0 u.
Proof. induction d; simpl; try discriminate. exact IHd. Qed.

Lemma to_uint_canonical (p : positive) :
  canonical_digits (NilEmpty.string_of_uint (Pos.to_uint p)) = true.
Proof.
  pose proof (DecimalPos.Unsigned.to_of (Pos.to_uint p)) as H.
  rewrite DecimalPos.Unsigned.of_to in H. simpl in H.
  pose proof (DecimalPos.Unsigned.to_uint_nonzero p) as Hz.
  destruct (Pos.to_uint p) as [|d|d|d|d|d|d|d|d|d|d] eqn:E; simpl;
    try (destruct (NilEmpty.string_of_uint d); reflexivity).
  - exfalso. now apply (DecimalPos.Unsigned.to_uint_nonnil p).
  - exfalso. unfold Decimal.unorm in H. simpl in H.
    destruct (Decimal.nzhead d) eqn:En; try discriminate.
    + injection H as H'. subst d. now apply Hz.
    + now apply (nzhead_not_D0 d u).
Qed.

Lemma NilZero_string_of_uint_nonnil (d : Decimal.uint) :
  d <> Decimal.Nil ->
  NilZero.string_of_uint d = NilEmpty.string_of_uint d.
Proof. destruct d; [congruence|reflexivity..]. Qed.

Lemma decimal_pos (p : positive) :
  NilZero.string_of_uint (Pos.to_uint p) =
  NilEmpty.string_of_uint (Pos.to_uint p) /\
  digits_value (NilEmpty.string_of_uint (Pos.to_uint p)) 0 = Some (Z.pos p).
Proof.
  split.
  - apply NilZero_string_of_uint_nonnil, DecimalPos.Unsigned.to_uint_nonnil.
  - rewrite digits_value_of_uint, DecimalPos.Unsigned.of_to. reflexivity.
Qed.

Lemma decimal_is_numeral (z : Z) : decimal_numeral z (decimal z).
Proof.
  unfold decimal_numeral, decimal. destruct z as [|p|p].
  - exists "0"%string. split; [reflexivity|]. left. repeat split. lia.
  - destruct (decimal_pos p) as [E V].
    exists (NilEmpty.string_of_uint (Pos.to_uint p)).
    split; [apply to_uint_canonical|]. left.
    split; [lia|]. split; [exact E|exact V].
  - destruct (decimal_pos p) as [E V].
    exists (NilEmpty.string_of_uint (Pos.to_uint p)).
    split; [apply to_uint_canonical|]. right.
    split; [lia|]. split; [|exact V].
    simpl. now rewrite E.
Qed.

Lemma row_line_is_row (r : org_result) : is_row r (row_line r).
Proof.
  destruct r as [[o a] c]. unfold is_row, row_line.
  exists (format_str 10 o),
         (spaces (10 - String.length (decimal a)) ++ decimal a)%string,
         (spaces (10 - String.length (decimal c)) ++ decimal c)%string,
         (decimal a), (decimal c).
  split; [reflexivity|].
  split; [apply format_str_left|].
  split; [apply decimal_is_numeral|]. split; [apply rjust_right|].
  split; [apply decimal_is_numeral|apply rjust_right].
Qed.

Lemma header_line_is_header : is_header header_line.
Proof.
  exists (format_center 10 "Organization"), (format_center 10 "ASRank"),
         (format_center 10 "ConeSize").
  split; [reflexivity|]. repeat split; apply format_center_centered.
Qed.

Lemma rule_line_is_rule : is_rule rule_line.
Proof.
  split; [reflexivity|]. intros n c.
  do 36 (destruct n as [|n]; [intros [= <-]; reflexivity|]); discriminate.
Qed.

Lemma format_row_to_tuple (r : org_result) :
  format_row (to_tuple r) = Ok (row_line r).
Proof. destruct r as [[o a] c]. reflexivity. Qed.

Lemma print_rows_results (rs : list org_result) :
  forall out, print_rows (map to_tuple rs) out = (Ok tt, out ++ map row_line rs).
Proof.
  induction rs as [|r rs IH]; intros out; simpl.
  - unfold ret. now rewrite app_nil_r.
  - unfold bind, lift, print. rewrite format_row_to_tuple, IH.
    now rewrite <- app_assoc.
Qed.

Lemma beautify_results (rs : list org_result) (out : list string) :
  beautify (map to_tuple rs) out =
  (Ok tt, out ++ header_line :: rule_line :: map row_line rs).
Proof.
  unfold beautify, bind, print. rewrite print_rows_results.
  now rewrite <- !app_assoc.
Qed.

(** ** The aggregator *)

Lemma aggregate_step_ok (server : api) (organization : string)
    (rest : list string) (results : list result_tuple) (out : list string)
    (asrank_ conesize_ : pyval) :
  get_highest_rank_asn server organization = Ok (asrank_, conesize_) ->
  aggregate server (organization :: rest) results out =
  aggregate server rest (results ++ [(organization, asrank_, conesize_)]) out.
Proof.
  intros H. simpl. unfold bind, try_except_ValueError, lift. now rewrite H.
Qed.

(** [except ValueError]: the organization is reported and skipped when the
    exception is of that class, and the exception leaves the loop when it
    is not. *)
Lemma aggregate_step_raise (server : api) (organization : string)
    (rest : list string) (results : list result_tuple) (out : list string)
    (e : exn) :
  get_highest_rank_asn server organization = Raise e ->
  aggregate server (organization :: rest) results out =
  if isinstance_ValueError e
  then aggregate server rest results (out ++ [diagnostic organization])
  else (Raise e, out).
Proof.
  intros H. simpl. unfold bind, try_except_ValueError, lift. rewrite H.
  now destruct (isinstance_ValueError e).
Qed.

Lemma aggregate_ValueError_only (server : api) (orgs : list string) :
  (forall o e, In o orgs -> get_highest_rank_asn server o = Raise e ->
               isinstance_ValueError e = true) ->
  forall results out,
    aggregate server orgs results out =
    (Ok (results ++ collected server orgs), out ++ diagnostics server orgs).
Proof.
  induction orgs as [|o orgs IH]; intros H results out.
  - simpl. unfold ret. now rewrite !app_nil_r.
  - assert (H' : forall o' e, In o' orgs ->
                 get_highest_rank_asn server o' = Raise e ->
                 isinstance_ValueError e = true)
      by (intros o' e Ho'; apply H; now right).
    unfold collected, diagnostics. simpl flat_map.
    destruct (get_highest_rank_asn server o) as [[a c]|e] eqn:E.
    + rewrite (aggregate_step_ok _ _ _ _ _ _ _ E), (IH H').
      now rewrite <- app_assoc.
    + rewrite (aggregate_step_raise _ _ _ _ _ _ E).
      rewrite (H o e (or_introl eq_refl) E), (IH H').
      now rewrite <- app_assoc.
Qed.

(** A scan that starts from an integer or meets a record of the rank looked
    for ends on an integer. *)
Lemma scan_conesize_int (es : list Edge) (m : Z) :
  forall c0 c,
    scan_conesize es m c0 = Ok c ->
    (exists z, c0 = PyInt z) \/ (exists e, In e es /\ node_rank e = Ok m) ->
    exists z, c = PyInt z.
Proof.
  induction es as [|e es IH]; intros c0 c H Hc; simpl in H.
  - injection H as <-. destruct Hc as [Hc|(e & [] & _)]. exact Hc.
  - destruct (node_rank e) as [r|x] eqn:Er; simpl in H; [|discriminate].
    destruct (r =? m) eqn:Erm.
    + destruct (node_cone_numberAsns e) as [v|x]; simpl in H; [|discriminate].
      apply (IH _ _ H). left. now exists v.
    + apply (IH _ _ H). destruct Hc as [Hc|(e' & [<-|He'] & Hr)].
      * now left.
      * rewrite Er in Hr. injection Hr as ->. rewrite Z.eqb_refl in Erm.
        discriminate.
      * right. now exists e'.
Qed.

(** What [get_highest_rank_asn] returns is a pair of integers. *)
Lemma get_highest_rank_asn_ints (server : api) (organization : string)
    (asrank_ conesize_ : pyval) :
  get_highest_rank_asn server organization = Ok (asrank_, conesize_) ->
  exists a c, asrank_ = PyInt a /\ conesize_ = PyInt c.
Proof.
  unfold get_highest_rank_asn, session_get_json.
  destruct (server organization) as [| |body]; simpl; try discriminate.
  destruct (data body) as [d|]; simpl; [|discriminate].
  destruct (asns d) as [a|]; simpl; [|discriminate].
  destruct (edges a) as [es|]; simpl; [|discriminate].
  destruct (py_min_rank es None) as [m|x] eqn:Em; simpl; [|discriminate].
  destruct (scan_conesize es m PyNone) as [c|x] eqn:Ec; simpl; [|discriminate].
  intros [= <- <-].
  apply py_min_rank_sound in Em. destruct Em as ([Hin|Hin] & _); [discriminate|].
  destruct (scan_conesize_int _ _ _ _ Ec (or_intror Hin)) as [z ->].
  now exists m, z.
Qed.

Lemma collected_results (server : api) (orgs : list string) :
  exists rs : list org_result, collected server orgs = map to_tuple rs.
Proof.
  induction orgs as [|o orgs [rs IH]]; [now exists []|].
  unfold collected in *. simpl.
  destruct (get_highest_rank_asn server o) as [[a c]|e] eqn:E.
  - destruct (get_highest_rank_asn_ints _ _ _ _ E) as (za & zc & -> & ->).
    exists ((o, za, zc) :: rs). simpl. now rewrite IH.
  - now exists rs.
Qed.

(** ** Properties of the selector *)

(** C1. For a non-empty list of raw AS records, [get_highest_rank_asn]
    returns a pair whose rank is the minimum of the ranks in the list: it is
    the rank of one of the records and no record has a smaller one. *)
Theorem get_highest_rank_asn_rank_is_minimum (server : api)
    (organization : string) (recs : list as_record) :
  server organization = JsonBody (body_of_edges (map edge_of recs)) ->
  recs <> [] ->
  exists m c,
    get_highest_rank_asn server organization = Ok (PyInt m, c) /\
    In m (map fst recs) /\
    forall r, In r (map fst recs) -> m <= r.
Proof.
  intros Hs Hne. rewrite (get_highest_rank_asn_edges _ _ _ Hs).
  destruct (py_min_rank_records recs Hne) as (m & -> & Hin & Hle). simpl.
  destruct (scan_conesize_total recs m PyNone) as [c ->]. simpl.
  now exists m, c.
Qed.

Lemma get_highest_rank_asn_rank_is_minimum_witness :
  sample_server "Linode"
    = JsonBody (body_of_edges (map edge_of [(6949, 2); (9000, 1)])) /\
  [(6949, 2); (9000, 1)] <> ([] : list as_record) /\
  exists m c,
    get_highest_rank_asn sample_server "Linode" = Ok (PyInt m, c) /\
    In m (map fst [(6949, 2); (9000, 1)]) /\
    forall r, In r (map fst [(6949, 2); (9000, 1)]) -> m <= r.
Proof.
  split; [reflexivity|]. split; [discriminate|].
  apply (get_highest_rank_asn_rank_is_minimum sample_server "Linode"
           [(6949, 2); (9000, 1)]); [reflexivity|discriminate].
Defined.

(** C4. When several records share the minimum rank, the cone size returned
    is that of the last of them in response order: for a list
    [l1 ++ (m, c) :: l2] whose least rank is [m] and where no record of
    [l2] has rank [m], the result is [(m, c)]. *)
Theorem get_highest_rank_asn_last_of_ties (server : api)
    (organization : string) (l1 l2 : list as_record) (m c : Z) :
  server organization
    = JsonBody (body_of_edges (map edge_of (l1 ++ (m, c) :: l2))) ->
  (forall x, In x (l1 ++ l2) -> m <= fst x) ->
  (forall x, In x l2 -> fst x <> m) ->
  get_highest_rank_asn server organization = Ok (PyInt m, PyInt c).
Proof.
  intros Hs Hmin Hlast. rewrite (get_highest_rank_asn_edges _ _ _ Hs).
  destruct (py_min_rank_records (l1 ++ (m, c) :: l2))
    as (m' & -> & Hin & Hle); [now destruct l1|].
  assert (m' = m) as ->.
  { apply Z.le_antisymm.
    - apply Hle. rewrite map_app, in_app_iff. right. now left.
    - apply in_map_iff in Hin. destruct Hin as (x & <- & Hx).
      apply in_app_iff in Hx. destruct Hx as [Hx|[<-|Hx]].
      + apply Hmin, in_app_iff. now left.
      + simpl. lia.
      + apply Hmin, in_app_iff. now right. }
  simpl. now rewrite scan_conesize_last.
Qed.

Lemma get_highest_rank_asn_last_of_ties_witness :
  sample_server "PhoenixNap"
    = JsonBody (body_of_edges (map edge_of ([(627, 60)] ++ (627, 61) :: []))) /\
  get_highest_rank_asn sample_server "PhoenixNap" = Ok (PyInt 627, PyInt 61).
Proof.
  split; [reflexivity|].
  apply (get_highest_rank_asn_last_of_ties sample_server "PhoenixNap"
           [(627, 60)] [] 627 61).
  - reflexivity.
  - intros x [<-|[]]. simpl. lia.
  - intros x [].
Defined.

(** C10. For a non-empty list of well-formed raw AS records the cone size
    returned is never the [None] the scan starts from: the pair returned is
    the rank and the cone size of one of the records. *)
Theorem get_highest_rank_asn_conesize_assigned (server : api)
    (organization : string) (recs : list as_record) :
  server organization = JsonBody (body_of_edges (map edge_of recs)) ->
  recs <> [] ->
  exists asrank_ conesize_ m c,
    get_highest_rank_asn server organization = Ok (asrank_, conesize_) /\
    conesize_ <> PyNone /\
    asrank_ = PyInt m /\ conesize_ = PyInt c /\ In (m, c) recs.
Proof.
  intros Hs Hne. rewrite (get_highest_rank_asn_edges _ _ _ Hs).
  destruct (py_min_rank_records recs Hne) as (m & Hm & Hin & _).
  destruct (last_occurrence recs m Hin) as (l1 & c & l2 & E & Hl2).
  subst recs. rewrite Hm. cbn [rbind].
  rewrite (scan_conesize_last l1 l2 m c PyNone Hl2). cbn [rbind].
  exists (PyInt m), (PyInt c), m, c. repeat split; try discriminate.
  apply in_app_iff. right. now left.
Qed.

Lemma get_highest_rank_asn_conesize_assigned_witness :
  sample_server "Equinix" = JsonBody (body_of_edges (map edge_of [(200, 232)])) /\
  exists asrank_ conesize_ m c,
    get_highest_rank_asn sample_server "Equinix" = Ok (asrank_, conesize_) /\
    conesize_ <> PyNone /\
    asrank_ = PyInt m /\ conesize_ = PyInt c /\ In (m, c) [(200, 232)].
Proof.
  split; [reflexivity|].
  apply (get_highest_rank_asn_conesize_assigned sample_server "Equinix"
           [(200, 232)]); [reflexivity|discriminate].
Defined.

(** C8. On an organization with no records [get_highest_rank_asn] raises
    [ValueError], the class the handler of the aggregator loop tests for:
    the loop prints the diagnostic of the organization and goes on with the
    next one, the results unchanged. *)
Theorem get_highest_rank_asn_empty_ValueError (server : api)
    (organization : string) (rest : list string)
    (results : list result_tuple) (out : list string) :
  server organization = JsonBody (body_of_edges []) ->
  get_highest_rank_asn server organization = Raise ValueError /\
  isinstance_ValueError ValueError = true /\
  aggregate server (organization :: rest) results out =
  aggregate server rest results (out ++ [diagnostic organization]).
Proof.
  intros Hs.
  assert (E : get_highest_rank_asn server organization = Raise ValueError)
    by now rewrite (get_highest_rank_asn_edges _ _ _ Hs).
  split; [exact E|]. split; [reflexivity|].
  now rewrite (aggregate_step_raise _ _ _ _ _ _ E).
Qed.

Lemma get_highest_rank_asn_empty_ValueError_witness :
  no_records_server "Ionos" = JsonBody (body_of_edges []) /\
  get_highest_rank_asn no_records_server "Ionos" = Raise ValueError /\
  isinstance_ValueError ValueError = true /\
  aggregate no_records_server ["Ionos"; "PhoenixNap"] [] [] =
  aggregate no_records_server ["PhoenixNap"] [] ([] ++ [diagnostic "Ionos"]).
Proof.
  split; [reflexivity|].
  apply (get_highest_rank_asn_empty_ValueError no_records_server "Ionos"
           ["PhoenixNap"] [] []).
  reflexivity.
Defined.

(** ** Properties of the aggregator *)

(** C2, as the code has it. The handler of the loop is [except ValueError]:
    when every failure of a run is of that class (an organization without
    records, a body that is not JSON) no failure aborts the run. The loop
    ends with the results of the organizations that answered, in order, and
    one diagnostic line per failed organization; [main] prints the table
    after the diagnostics and returns. With every organization failing this
    way the result list is empty and there is one diagnostic line per
    organization. *)
Theorem main_skips_ValueError_failures (server : api) (k : sort_key)
    (d : direction) (out : list string) :
  (forall o e, In o ORGANIZATIONS ->
               get_highest_rank_asn server o = Raise e ->
               isinstance_ValueError e = true) ->
  exists rs : list org_result,
    map to_tuple rs = collected server ORGANIZATIONS /\
    aggregate server ORGANIZATIONS [] out =
      (Ok (map to_tuple rs), out ++ diagnostics server ORGANIZATIONS) /\
    main server (metric_name k) (order_name d) out =
      (Ok tt, out ++ diagnostics server ORGANIZATIONS
                  ++ header_line :: rule_line :: map row_line (sorted_by k d rs)) /\
    ((forall o, In o ORGANIZATIONS ->
                exists e, get_highest_rank_asn server o = Raise e) ->
     rs = [] /\
     diagnostics server ORGANIZATIONS = map diagnostic ORGANIZATIONS).
Proof.
  intros H. destruct (collected_results server ORGANIZATIONS) as [rs Hrs].
  exists rs. split; [now symmetry|].
  assert (Hagg : forall out', aggregate server ORGANIZATIONS [] out' =
            (Ok (map to_tuple rs), out' ++ diagnostics server ORGANIZATIONS)).
  { intros out'. rewrite (aggregate_ValueError_only _ _ H). now rewrite Hrs. }
  split; [apply Hagg|]. split.
  - unfold main, bind. rewrite Hagg. unfold lift.
    rewrite sorting_asns_results, beautify_results.
    now rewrite <- app_assoc.
  - intros Hall.
    assert (Hc : forall orgs, (forall o, In o orgs ->
                   exists e, get_highest_rank_asn server o = Raise e) ->
                 collected server orgs = [] /\
                 diagnostics server orgs = map diagnostic orgs).
    { induction orgs as [|o orgs IH]; intros Ho; [now split|].
      unfold collected, diagnostics in *. simpl.
      destruct (Ho o (or_introl eq_refl)) as [e ->]. simpl.
      destruct IH as [-> ->]; [intros o' Ho'; apply Ho; now right|].
      now split. }
    destruct (Hc _ Hall) as [Hcol Hdiag]. split; [|exact Hdiag].
    rewrite Hcol in Hrs. symmetry in Hrs. now apply map_eq_nil in Hrs.
Qed.

Lemma main_skips_ValueError_failures_witness :
  (forall o e, In o ORGANIZATIONS ->
               get_highest_rank_asn no_records_server o = Raise e ->
               isinstance_ValueError e = true) /\
  main no_records_server "asrank" "ascending" [] =
    (Ok tt, map diagnostic ORGANIZATIONS ++ [header_line; rule_line]).
Proof.
  assert (H : forall o e, In o ORGANIZATIONS ->
                get_highest_rank_asn no_records_server o = Raise e ->
                isinstance_ValueError e = true).
  { intros o e _ E. unfold get_highest_rank_asn in E. simpl in E.
    now injection E as <-. }
  split; [exact H|].
  destruct (main_skips_ValueError_failures no_records_server asrank ascending
              [] H) as (rs & _ & _ & Hmain & Hall).
  destruct Hall as [-> Hd].
  { intros o _. now exists ValueError. }
  rewrite Hd in Hmain. exact Hmain.
Defined.

(** C2, counterexample. With Zenlayer answering a body that is not JSON and
    the transport failing for Equinix, the loop reports Zenlayer and the
    error of Equinix leaves [main]: the remaining organizations are not
    visited and no table is printed. *)
Lemma main_aborts_on_transport_error :
  get_highest_rank_asn outage_server "Equinix" = Raise ConnectionError /\
  main outage_server "asrank" "ascending" [] =
    (Raise ConnectionError, [diagnostic "Zenlayer"]).
Proof. split; reflexivity. Qed.

(** C3, as the code has it. A failed transport raises [ConnectionError], a
    body that is not JSON raises [JSONDecodeError], and an absent key
    [data], [asns] or [edges] raises [KeyError] with that key as its
    argument. Only the [KeyError] is of class [LookupError], and only the
    [JSONDecodeError] is of the class the loop catches: for it the loop
    reports the organization and goes on, and for the other two the
    exception leaves the loop. *)
Theorem fetch_failure_raises (server : api) (organization : string)
    (e : exn) (rest : list string) (results : list result_tuple)
    (out : list string) :
  fetch_failure (server organization) e ->
  get_highest_rank_asn server organization = Raise e /\
  isinstance_LookupError e =
    match server organization with JsonBody _ => true | _ => false end /\
  isinstance_ValueError e =
    match server organization with MalformedBody => true | _ => false end /\
  (forall key, e = KeyError key -> In key ["data"; "asns"; "edges"]) /\
  aggregate server (organization :: rest) results out =
    if isinstance_ValueError e
    then aggregate server rest results (out ++ [diagnostic organization])
    else (Raise e, out).
Proof.
  intros H.
  assert (E : get_highest_rank_asn server organization = Raise e).
  { unfold get_highest_rank_asn, session_get_json.
    inversion H as [Hs|Hs|body Hd Hs|body d Hd Ha Hs|body d a Hd Ha He Hs];
      subst; simpl; try reflexivity.
    - now rewrite Hd.
    - rewrite Hd. simpl. now rewrite Ha.
    - rewrite Hd. simpl. rewrite Ha. simpl. now rewrite He. }
  split; [exact E|].
  split; [now inversion H|]. split; [now inversion H|]. split.
  - intros key ->. inversion H; simpl; auto.
  - apply (aggregate_step_raise _ _ _ _ _ _ E).
Qed.

Lemma fetch_failure_raises_witness :
  fetch_failure (missing_data_server "Linode") (KeyError "data") /\
  get_highest_rank_asn missing_data_server "Linode" = Raise (KeyError "data") /\
  aggregate missing_data_server ["Linode"; "Ionos"] [] [] =
    (Raise (KeyError "data"), []).
Proof.
  assert (H : fetch_failure (missing_data_server "Linode") (KeyError "data"))
    by (apply data_absent; reflexivity).
  split; [exact H|].
  destruct (fetch_failure_raises missing_data_server "Linode" (KeyError "data")
              ["Ionos"] [] [] H) as (E & _ & _ & _ & Hagg).
  split; [exact E|exact Hagg].
Defined.

(** C3, counterexample. With the key [data] absent from the response for
    Zenlayer, the exception is [KeyError('data')]: its argument is the key,
    not the organization, it is not of the class the loop catches, and it
    leaves [main] before anything is printed. *)
Lemma missing_key_is_not_caught :
  get_highest_rank_asn missing_data_server "Zenlayer" = Raise (KeyError "data") /\
  KeyError "data" <> KeyError "Zenlayer" /\
  isinstance_ValueError (KeyError "data") = false /\
  main missing_data_server "asrank" "ascending" [] = (Raise (KeyError "data"), []).
Proof. repeat split; try reflexivity. discriminate. Qed.

(** ** Properties of the sorter *)

(** C5. [sorting_asns] is stable in both directions: for every selector and
    direction, the results whose selected field has a given value come out
    in the order they went in. *)
Theorem sorting_asns_stable (k : sort_key) (d : direction)
    (rs : list org_result) :
  exists sorted_results : list org_result,
    sorting_asns (map to_tuple rs) (metric_name k) (order_name d) =
      Ok (map to_tuple sorted_results) /\
    forall v, with_value k v sorted_results = with_value k v rs.
Proof.
  exists (sorted_by k d rs). split; [apply sorting_asns_results|].
  intros v. apply sorted_by_with_value.
Qed.

(** C6. For every selector, [sorting_asns] with [ascending] returns the
    results with the selected field non-decreasing and with [descending]
    non-increasing; either way the output is a permutation of the input,
    and the empty list sorts to the empty list. *)
Theorem sorting_asns_ordered_permutation (k : sort_key)
    (rs : list org_result) :
  (exists up : list org_result,
     sorting_asns (map to_tuple rs) (metric_name k) "ascending" =
       Ok (map to_tuple up) /\
     StronglySorted Z.le (map (selected_field k) up) /\
     Permutation (map to_tuple rs) (map to_tuple up)) /\
  (exists down : list org_result,
     sorting_asns (map to_tuple rs) (metric_name k) "descending" =
       Ok (map to_tuple down) /\
     StronglySorted Z.ge (map (selected_field k) down) /\
     Permutation (map to_tuple rs) (map to_tuple down)) /\
  sorting_asns [] (metric_name k) "ascending" = Ok [] /\
  sorting_asns [] (metric_name k) "descending" = Ok [].
Proof.
  split; [|split; [|split; reflexivity]].
  - exists (sorted_by k ascending rs).
    split; [apply (sorting_asns_results k ascending)|].
    split; [apply (sorted_by_in_order k ascending)|].
    apply Permutation_map, sorted_by_perm.
  - exists (sorted_by k descending rs).
    split; [apply (sorting_asns_results k descending)|].
    split; [apply (sorted_by_in_order k descending)|].
    apply Permutation_map, sorted_by_perm.
Qed.

(** C7. [sorting_asns] is idempotent: for every selector and direction,
    sorting the sorted list again with the same selector and direction
    returns it unchanged. *)
Theorem sorting_asns_idempotent (k : sort_key) (d : direction)
    (rs : list org_result) :
  exists sorted_results : list result_tuple,
    sorting_asns (map to_tuple rs) (metric_name k) (order_name d) =
      Ok sorted_results /\
    sorting_asns sorted_results (metric_name k) (order_name d) =
      Ok sorted_results.
Proof.
  exists (map to_tuple (sorted_by k d rs)).
  split; [apply sorting_asns_results|].
  rewrite sorting_asns_results.
  now rewrite (sorted_by_fixpoint k d _ (sorted_by_in_order k d rs)).
Qed.

(** ** Properties of the presenter *)

(** C9, as the code has it. [beautify] prints the header
    [Organization   ASRank    ConeSize ]: the three names with one space
    between fields, each centered with blanks in a field of width 10 and
    left whole when it is longer, as [Organization] with its 12 characters
    is; then a rule of 35 dashes; then one row per result in order: the
    organization left-justified and the two integers as decimal numerals
    right-justified, each padded with blanks to width 10 and left whole
    when longer. With no results it prints the header and the rule
    alone. *)
Theorem beautify_prints_table (rs : list org_result) (out : list string) :
  exists (header rule : string) (rows : list string),
    beautify (map to_tuple rs) out = (Ok tt, out ++ header :: rule :: rows) /\
    header = "Organization   ASRank    ConeSize "%string /\
    is_header header /\
    is_rule rule /\
    Forall2 is_row rs rows /\
    beautify [] out = (Ok tt, out ++ [header; rule]).
Proof.
  exists header_line, rule_line, (map row_line rs).
  split; [apply beautify_results|]. split; [reflexivity|].
  split; [apply header_line_is_header|].
  split; [apply rule_line_is_rule|]. split.
  - induction rs as [|r rs IH]; constructor; [apply row_line_is_row|exact IH].
  - apply (beautify_results []).
Qed.

(** C9, counterexample. The header [beautify] prints has 34 characters:
    it is not three fields of 10 characters with single spaces between
    them, which would make 32. *)
Lemma header_is_not_three_fields_of_10 :
  exists header rule : string,
    beautify [] [] = (Ok tt, [header; rule]) /\
    String.length header = 34%nat /\
    ~ (exists f1 f2 f3 : string,
         header = (f1 ++ " " ++ f2 ++ " " ++ f3)%string /\
         String.length f1 = 10%nat /\
         String.length f2 = 10%nat /\
         String.length f3 = 10%nat).
Proof.
  exists header_line, rule_line. split; [reflexivity|]. split; [reflexivity|].
  intros (f1 & f2 & f3 & E & H1 & H2 & H3).
  apply (f_equal String.length) in E.
  rewrite !length_append, H1, H2, H3 in E. simpl in E. discriminate.
Qed.

(** The sample table of the module docstring, by cone size, largest
    first. *)
Example sorting_asns_sample :
  sorting_asns
    (map to_tuple [("Linode", 6949, 2); ("Ionos", 725, 49);
                   ("PhoenixNap", 627, 60); ("Equinix", 200, 232);
                   ("Zenlayer", 122, 372)])
    "cone_size" "descending" =
  Ok (map to_tuple [("Zenlayer", 122, 372); ("Equinix", 200, 232);
                    ("PhoenixNap", 627, 60); ("Ionos", 725, 49);
                    ("Linode", 6949, 2)]).
Proof. reflexivity. Qed.

(** A run over answers of every kind the loop lets through: Zenlayer and
    Ionos are reported, the others are listed by rank. *)
Example main_sample :
  main sample_server "asrank" "ascending" [] =
  (Ok tt,
   ["the following Zenlayer does not have information!";
    "the following Ionos does not have information!";
    "Organization   ASRank    ConeSize ";
    "-----------------------------------";
    "Equinix           200        232";
    "PhoenixNap        627         61";
    "Linode           6949          2"]).
Proof. reflexivity. Qed.

(** A key that is [None] cannot be ordered against another key. *)
Example sorting_asns_None :
  sorting_asns [("Linode", PyInt 6949, PyNone); ("Ionos", PyInt 725, PyInt 49)]
    "cone_size" "ascending" = Raise TypeError.
Proof. reflexivity. Qed.

(** ** More on the selector *)

Lemma node_rank_raise (e : Edge) (x : exn) :
  node_rank e = Raise x -> x = KeyError "node" \/ x = KeyError "rank".
Proof.
  unfold node_rank. destruct (node e) as [n|]; simpl.
  - destruct (rank n); simpl; [discriminate|]. intros [= <-]. now right.
  - intros [= <-]. now left.
Qed.

Lemma node_cone_numberAsns_raise (e : Edge) (x : exn) :
  node_cone_numberAsns e = Raise x -> exists key, x = KeyError key.
Proof.
  unfold node_cone_numberAsns. destruct (node e) as [n|]; simpl.
  - destruct (cone n) as [c|]; simpl.
    + destruct (numberAsns c); simpl; [discriminate|].
      intros [= <-]. now eexists.
    + intros [= <-]. now eexists.
  - intros [= <-]. now eexists.
Qed.

(** [min] raises [ValueError] only on an exhausted generator with nothing
    seen; any other exception is the [KeyError] of an item. *)
Lemma py_min_rank_raise (es : list Edge) :
  forall current x,
    py_min_rank es current = Raise x ->
    (x = ValueError /\ es = [] /\ current = None) \/
    (x = KeyError "node" \/ x = KeyError "rank").
Proof.
  induction es as [|e es IH]; intros current x H; simpl in H.
  - destruct current; [discriminate|]. injection H as <-. now left.
  - destruct (node_rank e) as [r|y] eqn:Er; simpl in H.
    + apply IH in H. destruct H as [(_ & _ & H)|H]; [discriminate|now right].
    + injection H as <-. right. now apply node_rank_raise in Er.
Qed.

Lemma scan_conesize_raise (es : list Edge) (m : Z) :
  forall c0 x, scan_conesize es m c0 = Raise x -> exists key, x = KeyError key.
Proof.
  induction es as [|e es IH]; intros c0 x H; simpl in H; [discriminate|].
  destruct (node_rank e) as [r|y] eqn:Er; simpl in H.
  - destruct (r =? m); [|now apply IH in H].
    destruct (node_cone_numberAsns e) as [c|y] eqn:Ec; simpl in H.
    + now apply IH in H.
    + injection H as <-. now apply node_cone_numberAsns_raise in Ec.
  - injection H as <-. apply node_rank_raise in Er.
    destruct Er as [->| ->]; now eexists.
Qed.

(** An item without a rank makes [min] raise the [KeyError] of the first
    such item. *)
Lemma py_min_rank_missing (es : list Edge) (e : Edge) (x : exn) :
  In e es -> node_rank e = Raise x ->
  forall current,
    exists key, py_min_rank es current = Raise (KeyError key) /\
                (key = "node" \/ key = "rank").
Proof.
  intros Hin Hx. induction es as [|e0 es IH]; [destruct Hin|].
  intros current. simpl.
  destruct (node_rank e0) as [r|y] eqn:Er; simpl.
  - destruct Hin as [->|Hin]; [congruence|]. apply (IH Hin).
  - apply node_rank_raise in Er. destruct Er as [->| ->]; eexists; eauto.
Qed.

(** The cone size a scan ends with is the one it started from or the cone
    size of an item of the rank looked for. *)
Lemma scan_conesize_origin (es : list Edge) (m : Z) :
  forall c0 c,
    scan_conesize es m c0 = Ok c ->
    c = c0 \/
    exists e z, In e es /\ node_rank e = Ok m /\
                node_cone_numberAsns e = Ok z /\ c = PyInt z.
Proof.
  induction es as [|e es IH]; intros c0 c H; simpl in H.
  - injection H as <-. now left.
  - destruct (node_rank e) as [r|y] eqn:Er; simpl in H; [|discriminate].
    destruct (r =? m) eqn:Erm.
    + apply Z.eqb_eq in Erm. subst r.
      destruct (node_cone_numberAsns e) as [v|y] eqn:Ec; simpl in H;
        [|discriminate].
      apply IH in H. destruct H as [->|(e' & z & He' & Hr & Hc & ->)].
      * right. exists e, v. repeat split; auto. now left.
      * right. exists e', z. repeat split; auto. now right.
    + apply IH in H. destruct H as [->|(e' & z & He' & Hr & Hc & ->)].
      * now left.
      * right. exists e', z. repeat split; auto. now right.
Qed.

(** An item of another rank does not take part in the scan, whatever its
    other keys are. *)
Lemma scan_conesize_skip (l1 l2 : list Edge) (e : Edge) (r m : Z) (c0 : pyval) :
  node_rank e = Ok r -> r <> m ->
  scan_conesize (l1 ++ e :: l2) m c0 = scan_conesize (l1 ++ l2) m c0.
Proof.
  intros Hr Hne. rewrite !scan_conesize_app.
  destruct (scan_conesize l1 m c0) as [c|x]; simpl; [|reflexivity].
  rewrite Hr. simpl. apply Z.eqb_neq in Hne. now rewrite Hne.
Qed.

(** The selector on well-formed records: the pair returned is a record of
    least rank. *)
Lemma selector_on_records (recs : list as_record) :
  recs <> [] ->
  exists m c,
    (highest_rank <- py_min_rank (map edge_of recs) None ;;
     conesize <- scan_conesize (map edge_of recs) highest_rank PyNone ;;
     Ok (PyInt highest_rank, conesize)) = Ok (PyInt m, PyInt c) /\
    In (m, c) recs /\
    forall x, In x recs -> m <= fst x.
Proof.
  intros Hne.
  destruct (py_min_rank_records recs Hne) as (m & Hm & Hin & Hle).
  destruct (last_occurrence recs m Hin) as (l1 & c & l2 & E & Hl2).
  exists m, c. subst recs. rewrite Hm. cbn [rbind].
  rewrite (scan_conesize_last l1 l2 m c PyNone Hl2). cbn [rbind].
  split; [reflexivity|]. split.
  - apply in_app_iff. right. now left.
  - intros x Hx. apply Hle. now apply in_map.
Qed.

(** X1. When [session.get] returns a response, [get_highest_rank_asn]
    raises an exception of class [ValueError], the class the loop reports
    and skips, exactly when the body is not JSON or the list of edges is
    there and empty. *)
Theorem get_highest_rank_asn_ValueError_iff (server : api)
    (organization : string) :
  server organization <> NetworkFailure ->
  ((exists e, get_highest_rank_asn server organization = Raise e /\
              isinstance_ValueError e = true) <->
   (server organization = MalformedBody \/
    exists body d a,
      server organization = JsonBody body /\ data body = Some d /\
      asns d = Some a /\ edges a = Some [])).
Proof.
  intros Hresp. unfold get_highest_rank_asn, session_get_json. split.
  - intros (e & H & He).
    destruct (server organization) as [| |body]; simpl in H.
    + now contradiction Hresp.
    + now left.
    + right. exists body.
      destruct (data body) as [d|] eqn:Hd; simpl in H;
        [|injection H as <-; discriminate].
      destruct (asns d) as [a|] eqn:Ha; simpl in H;
        [|injection H as <-; discriminate].
      destruct (edges a) as [es|] eqn:Hes; simpl in H;
        [|injection H as <-; discriminate].
      exists d, a. split; [reflexivity|]. split; [reflexivity|].
      split; [exact Ha|]. rewrite Hes. f_equal.
      destruct (py_min_rank es None) as [m|x] eqn:Em; simpl in H.
      * destruct (scan_conesize es m PyNone) as [c|x] eqn:Ec; simpl in H;
          [discriminate|].
        injection H as <-. apply scan_conesize_raise in Ec.
        destruct Ec as [key ->]. discriminate.
      * injection H as <-. apply py_min_rank_raise in Em.
        destruct Em as [(_ & -> & _)|[->| ->]];
          [reflexivity|discriminate|discriminate].
  - intros [->|(body & d & a & -> & Hd & Ha & He)].
    + now exists JSONDecodeError.
    + exists ValueError. simpl. rewrite Hd. simpl. rewrite Ha. simpl.
      rewrite He. now simpl.
Qed.

Lemma get_highest_rank_asn_ValueError_iff_witness :
  sample_server "Ionos" <> NetworkFailure /\
  exists e, get_highest_rank_asn sample_server "Ionos" = Raise e /\
            isinstance_ValueError e = true.
Proof.
  assert (H : sample_server "Ionos" <> NetworkFailure) by discriminate.
  split; [exact H|].
  apply (proj2 (get_highest_rank_asn_ValueError_iff sample_server "Ionos" H)).
  right. exists (body_of_edges []), {| asns := Some {| edges := Some [] |} |},
                {| edges := Some [] |}.
  repeat split.
Defined.

(** X2. A pair [get_highest_rank_asn] returns comes from one edge of the
    response: its rank is the rank of that edge, its cone size is the cone
    size of the same edge, and no edge of the response has a smaller
    rank. *)
Theorem get_highest_rank_asn_returns_an_edge (server : api)
    (organization : string) (asrank_ conesize_ : pyval) :
  get_highest_rank_asn server organization = Ok (asrank_, conesize_) ->
  exists body d a es e m z,
    server organization = JsonBody body /\ data body = Some d /\
    asns d = Some a /\ edges a = Some es /\
    In e es /\ node_rank e = Ok m /\ node_cone_numberAsns e = Ok z /\
    (asrank_, conesize_) = (PyInt m, PyInt z) /\
    forall e', In e' es -> exists r, node_rank e' = Ok r /\ m <= r.
Proof.
  unfold get_highest_rank_asn, session_get_json.
  destruct (server organization) as [| |body]; simpl; try discriminate.
  destruct (data body) as [d|] eqn:Hd; simpl; [|discriminate].
  destruct (asns d) as [a|] eqn:Ha; simpl; [|discriminate].
  destruct (edges a) as [es|] eqn:He; simpl; [|discriminate].
  destruct (py_min_rank es None) as [m|x] eqn:Em; simpl; [|discriminate].
  destruct (scan_conesize es m PyNone) as [c|x] eqn:Ec; simpl; [|discriminate].
  intros [= <- <-].
  apply py_min_rank_sound in Em.
  destruct Em as ([Hin|Hin] & _ & Hall); [discriminate|].
  destruct (scan_conesize_int _ _ _ _ Ec (or_intror Hin)) as [z ->].
  apply scan_conesize_origin in Ec.
  destruct Ec as [Ec|(e & z' & Hine & Hr & Hc & [= ->])]; [discriminate|].
  exists body, d, a, es, e, m, z'. repeat split; auto.
Qed.

Lemma get_highest_rank_asn_returns_an_edge_witness :
  get_highest_rank_asn sample_server "PhoenixNap" = Ok (PyInt 627, PyInt 61) /\
  exists body d a es e m z,
    sample_server "PhoenixNap" = JsonBody body /\ data body = Some d /\
    asns d = Some a /\ edges a = Some es /\
    In e es /\ node_rank e = Ok m /\ node_cone_numberAsns e = Ok z /\
    (PyInt 627, PyInt 61) = (PyInt m, PyInt z) /\
    forall e', In e' es -> exists r, node_rank e' = Ok r /\ m <= r.
Proof.
  split; [reflexivity|].
  apply (get_highest_rank_asn_returns_an_edge sample_server "PhoenixNap").
  reflexivity.
Defined.

(** X3. The cone size is read only from records of the least rank: a
    record without a [cone] key whose rank is not the least leaves the
    result what it is for the other records. *)
Theorem get_highest_rank_asn_ignores_other_cones (server : api)
    (organization : string) (l1 l2 : list as_record) (r : Z) :
  server organization
    = JsonBody (body_of_edges
                  (map edge_of l1 ++ record_without_cone r :: map edge_of l2)) ->
  (exists x, In x (l1 ++ l2) /\ fst x < r) ->
  exists m c,
    get_highest_rank_asn server organization = Ok (PyInt m, PyInt c) /\
    In (m, c) (l1 ++ l2) /\
    forall x, In x (l1 ++ l2) -> m <= fst x.
Proof.
  intros Hs (x0 & Hx0 & Hlt). rewrite (get_highest_rank_asn_edges _ _ _ Hs).
  set (es := map edge_of l1 ++ record_without_cone r :: map edge_of l2).
  assert (Hranks : forall e, In e es ->
            exists q, node_rank e = Ok q /\
                      (q = r \/ In q (map fst (l1 ++ l2)))).
  { intros e He. unfold es in He. apply in_app_iff in He.
    destruct He as [He|[<-|He]].
    - apply in_map_iff in He. destruct He as (y & <- & Hy).
      exists (fst y). split; [reflexivity|]. right.
      apply in_map, in_app_iff. now left.
    - exists r. split; [reflexivity|now left].
    - apply in_map_iff in He. destruct He as (y & <- & Hy).
      exists (fst y). split; [reflexivity|]. right.
      apply in_map, in_app_iff. now right. }
  destruct (py_min_rank_total es None) as [m Hm].
  { intros e He. destruct (Hranks e He) as (q & Hq & _). now exists q. }
  { right. unfold es. now destruct (map edge_of l1). }
  rewrite Hm. cbn [rbind].
  apply py_min_rank_sound in Hm.
  destruct Hm as ([Hin|(e & He & Hr)] & _ & Hall); [discriminate|].
  assert (Hlow : forall x, In x (l1 ++ l2) -> m <= fst x).
  { intros x Hx. destruct (Hall (edge_of x)) as (q & Hq & Hle).
    - unfold es. apply in_app_iff in Hx. apply in_app_iff.
      destruct Hx as [Hx|Hx]; [left|right; right]; now apply in_map.
    - rewrite node_rank_edge_of in Hq. now injection Hq as <-. }
  assert (Hmr : r <> m) by (specialize (Hlow x0 Hx0); lia).
  assert (Hm' : In m (map fst (l1 ++ l2))).
  { destruct (Hranks e He) as (q & Hq & Hcase). rewrite Hr in Hq.
    injection Hq as <-. destruct Hcase as [->|H]; [congruence|exact H]. }
  unfold es.
  rewrite (scan_conesize_skip (map edge_of l1) (map edge_of l2)
             (record_without_cone r) r m PyNone eq_refl Hmr).
  rewrite <- map_app.
  destruct (last_occurrence _ m Hm') as (k1 & c & k2 & E & Hk2).
  exists m, c. split; [|split; [|exact Hlow]].
  - rewrite E, (scan_conesize_last k1 k2 m c PyNone Hk2). reflexivity.
  - rewrite E. apply in_app_iff. right. now left.
Qed.

Lemma get_highest_rank_asn_ignores_other_cones_witness :
  server_of_edges (map edge_of [(200, 232)] ++ record_without_cone 300
                     :: map edge_of []) "Equinix"
    = JsonBody (body_of_edges
                  (map edge_of [(200, 232)] ++ record_without_cone 300
                     :: map edge_of [])) /\
  (exists x, In x ([(200, 232)] ++ []) /\ fst x < 300) /\
  exists m c,
    get_highest_rank_asn
      (server_of_edges (map edge_of [(200, 232)] ++ record_without_cone 300
                          :: map edge_of [])) "Equinix"
      = Ok (PyInt m, PyInt c) /\
    In (m, c) ([(200, 232)] ++ []) /\
    forall x, In x ([(200, 232)] ++ []) -> m <= fst x.
Proof.
  split; [reflexivity|].
  assert (H : exists x : as_record, In x ([(200, 232)] ++ []) /\ fst x < 300)
    by (exists (200, 232); split; [now left|reflexivity]).
  split; [exact H|].
  apply (get_highest_rank_asn_ignores_other_cones _ "Equinix" [(200, 232)] []
           300 eq_refl H).
Defined.

(** X4. A record of the least rank without a [cone] key makes
    [get_highest_rank_asn] raise [KeyError('cone')], also when other
    records of that rank have a cone size; the loop does not catch it. *)
Theorem get_highest_rank_asn_missing_cone (server : api)
    (organization : string) (l1 l2 : list as_record) (r : Z)
    (rest : list string) (results : list result_tuple) (out : list string) :
  server organization
    = JsonBody (body_of_edges
                  (map edge_of l1 ++ record_without_cone r :: map edge_of l2)) ->
  (forall x, In x (l1 ++ l2) -> r <= fst x) ->
  get_highest_rank_asn server organization = Raise (KeyError "cone") /\
  aggregate server (organization :: rest) results out
    = (Raise (KeyError "cone"), out).
Proof.
  intros Hs Hlow.
  assert (E : get_highest_rank_asn server organization = Raise (KeyError "cone")).
  { rewrite (get_highest_rank_asn_edges _ _ _ Hs).
    set (es := map edge_of l1 ++ record_without_cone r :: map edge_of l2).
    assert (Hranks : forall e, In e es ->
              exists q, node_rank e = Ok q /\ r <= q).
    { intros e He. unfold es in He. apply in_app_iff in He.
      destruct He as [He|[<-|He]].
      - apply in_map_iff in He. destruct He as (y & <- & Hy).
        exists (fst y). split; [reflexivity|]. apply Hlow, in_app_iff. now left.
      - exists r. split; [reflexivity|lia].
      - apply in_map_iff in He. destruct He as (y & <- & Hy).
        exists (fst y). split; [reflexivity|]. apply Hlow, in_app_iff.
        now right. }
    destruct (py_min_rank_total es None) as [m Hm].
    { intros e He. destruct (Hranks e He) as (q & Hq & _). now exists q. }
    { right. unfold es. now destruct (map edge_of l1). }
    rewrite Hm. cbn [rbind]. apply py_min_rank_sound in Hm.
    destruct Hm as ([Hin|(e & He & Hr)] & _ & Hall); [discriminate|].
    assert (m = r) as ->.
    { apply Z.le_antisymm.
      - destruct (Hall (record_without_cone r)) as (q & Hq & Hle).
        + unfold es. apply in_app_iff. right. now left.
        + now injection Hq as <-.
      - destruct (Hranks e He) as (q & Hq & Hle). rewrite Hr in Hq.
        now injection Hq as <-. }
    unfold es. rewrite scan_conesize_app.
    destruct (scan_conesize_total l1 r PyNone) as [c1 ->]. simpl.
    now rewrite Z.eqb_refl. }
  split; [exact E|]. now rewrite (aggregate_step_raise _ _ _ _ _ _ E).
Qed.

Lemma get_highest_rank_asn_missing_cone_witness :
  server_of_edges (map edge_of [(200, 232)] ++ record_without_cone 200
                     :: map edge_of [(725, 49)]) "Equinix"
    = JsonBody (body_of_edges
                  (map edge_of [(200, 232)] ++ record_without_cone 200
                     :: map edge_of [(725, 49)])) /\
  get_highest_rank_asn
    (server_of_edges (map edge_of [(200, 232)] ++ record_without_cone 200
                        :: map edge_of [(725, 49)])) "Equinix"
    = Raise (KeyError "cone").
Proof.
  split; [reflexivity|].
  apply (get_highest_rank_asn_missing_cone _ "Equinix" [(200, 232)]
           [(725, 49)] 200 [] [] [] eq_refl).
  intros x [<-|[<-|[]]]; simpl; lia.
Defined.

(** X5. An edge without a [node] or a [rank] key, wherever it is in the
    response and whatever the other edges are, makes
    [get_highest_rank_asn] raise the [KeyError] of that key; the loop does
    not catch it. *)
Theorem get_highest_rank_asn_missing_rank (server : api)
    (organization : string) (es : list Edge) (e : Edge) (x : exn)
    (rest : list string) (results : list result_tuple) (out : list string) :
  server organization = JsonBody (body_of_edges es) ->
  In e es ->
  node_rank e = Raise x ->
  exists key,
    (key = "node" \/ key = "rank") /\
    get_highest_rank_asn server organization = Raise (KeyError key) /\
    aggregate server (organization :: rest) results out
      = (Raise (KeyError key), out).
Proof.
  intros Hs Hin Hx.
  destruct (py_min_rank_missing es e x Hin Hx None) as (key & Hm & Hkey).
  exists key. split; [exact Hkey|].
  assert (E : get_highest_rank_asn server organization = Raise (KeyError key))
    by (rewrite (get_highest_rank_asn_edges _ _ _ Hs), Hm; reflexivity).
  split; [exact E|]. now rewrite (aggregate_step_raise _ _ _ _ _ _ E).
Qed.

Lemma get_highest_rank_asn_missing_rank_witness :
  In {| node := None |} [raw_record 200 232; {| node := None |}] /\
  node_rank {| node := None |} = Raise (KeyError "node") /\
  exists key,
    (key = "node" \/ key = "rank") /\
    get_highest_rank_asn
      (server_of_edges [raw_record 200 232; {| node := None |}]) "Equinix"
      = Raise (KeyError key) /\
    aggregate (server_of_edges [raw_record 200 232; {| node := None |}])
      ["Equinix"; "Linode"] [] []
      = (Raise (KeyError key), []).
Proof.
  split; [right; now left|]. split; [reflexivity|].
  apply (get_highest_rank_asn_missing_rank
           (server_of_edges [raw_record 200 232; {| node := None |}])
           "Equinix" [raw_record 200 232; {| node := None |}]
           {| node := None |} (KeyError "node") ["Linode"] [] [] eq_refl).
  - right. now left.
  - reflexivity.
Defined.

(** X6. The result does not depend on the order of the response when the
    rank tells the record: for two responses that are permutations of each
    other, with no two different records of the same rank,
    [get_highest_rank_asn] gives the same outcome. *)
Theorem get_highest_rank_asn_order_independent (server : api)
    (org1 org2 : string) (recs1 recs2 : list as_record) :
  server org1 = JsonBody (body_of_edges (map edge_of recs1)) ->
  server org2 = JsonBody (body_of_edges (map edge_of recs2)) ->
  Permutation recs1 recs2 ->
  (forall x y, In x recs1 -> In y recs1 -> fst x = fst y -> x = y) ->
  get_highest_rank_asn server org1 = get_highest_rank_asn server org2.
Proof.
  intros H1 H2 Hp Huniq.
  rewrite (get_highest_rank_asn_edges _ _ _ H1),
          (get_highest_rank_asn_edges _ _ _ H2).
  destruct recs1 as [|x1 t1].
  - apply Permutation_nil in Hp. now subst.
  - assert (Hne2 : recs2 <> []).
    { intros ->. apply Permutation_sym, Permutation_nil in Hp. discriminate. }
    destruct (selector_on_records (x1 :: t1)) as (m1 & c1 & -> & Hin1 & Hle1);
      [discriminate|].
    destruct (selector_on_records recs2 Hne2) as (m2 & c2 & -> & Hin2 & Hle2).
    apply (Permutation_in _ (Permutation_sym Hp)) in Hin2.
    assert (Em : m1 = m2).
    { apply Z.le_antisymm.
      - apply (Hle1 _ Hin2).
      - apply (Hle2 (m1, c1)). now apply (Permutation_in _ Hp). }
    assert (E : (m1, c1) = (m2, c2)) by (apply Huniq; auto).
    now injection E as -> ->.
Qed.

Lemma get_highest_rank_asn_order_independent_witness :
  (fun o => if String.eqb o "Linode"
            then JsonBody (body_of_edges (map edge_of [(6949, 2); (9000, 1)]))
            else JsonBody (body_of_edges (map edge_of [(9000, 1); (6949, 2)])))
    "Linode" = JsonBody (body_of_edges (map edge_of [(6949, 2); (9000, 1)])) /\
  Permutation [(6949, 2); (9000, 1)] [(9000, 1); (6949, 2)] /\
  get_highest_rank_asn
    (fun o => if String.eqb o "Linode"
              then JsonBody (body_of_edges (map edge_of [(6949, 2); (9000, 1)]))
              else JsonBody (body_of_edges (map edge_of [(9000, 1); (6949, 2)])))
    "Linode"
  = get_highest_rank_asn
    (fun o => if String.eqb o "Linode"
              then JsonBody (body_of_edges (map edge_of [(6949, 2); (9000, 1)]))
              else JsonBody (body_of_edges (map edge_of [(9000, 1); (6949, 2)])))
    "Ionos".
Proof.
  split; [reflexivity|]. split; [apply perm_swap|].
  apply (get_highest_rank_asn_order_independent _ "Linode" "Ionos"
           [(6949, 2); (9000, 1)] [(9000, 1); (6949, 2)] eq_refl eq_refl).
  - apply perm_swap.
  - intros x y [<-|[<-|[]]] [<-|[<-|[]]] E; try reflexivity;
      simpl in E; discriminate.
Defined.

(** ** More on the aggregator *)

(** A loop that ends normally met no exception outside [ValueError]. *)
Lemma aggregate_ok_inv (server : api) (orgs : list string) :
  forall results out results' out',
    aggregate server orgs results out = (Ok results', out') ->
    forall o e, In o orgs -> get_highest_rank_asn server o = Raise e ->
                isinstance_ValueError e = true.
Proof.
  induction orgs as [|o0 orgs IH]; intros results out results' out' H o e Hin He.
  - destruct Hin.
  - destruct (get_highest_rank_asn server o0) as [[a c]|e0] eqn:E0.
    + rewrite (aggregate_step_ok _ _ _ _ _ _ _ E0) in H.
      destruct Hin as [->|Hin]; [congruence|].
      apply (IH _ _ _ _ H o e Hin He).
    + rewrite (aggregate_step_raise _ _ _ _ _ _ E0) in H.
      destruct (isinstance_ValueError e0) eqn:Ev; [|discriminate].
      destruct Hin as [->|Hin]; [congruence|].
      apply (IH _ _ _ _ H o e Hin He).
Qed.

(** The loop over [l1 ++ l2] is the loop over [l1] followed, when it ends
    normally, by the loop over [l2]. *)
Lemma aggregate_app (server : api) (l1 l2 : list string) :
  forall results out,
    aggregate server (l1 ++ l2) results out =
    match aggregate server l1 results out with
    | (Ok results', out') => aggregate server l2 results' out'
    | (Raise e, out') => (Raise e, out')
    end.
Proof.
  induction l1 as [|o l1 IH]; intros results out; [reflexivity|].
  rewrite <- app_comm_cons.
  destruct (get_highest_rank_asn server o) as [[a c]|e] eqn:E.
  - rewrite !(aggregate_step_ok _ _ _ _ _ _ _ E). apply IH.
  - rewrite !(aggregate_step_raise _ _ _ _ _ _ E).
    destruct (isinstance_ValueError e); [apply IH|reflexivity].
Qed.

Lemma collected_names (server : api) (orgs : list string) :
  map organization_of (collected server orgs) = filter (answered server) orgs.
Proof.
  induction orgs as [|o orgs IH]; [reflexivity|].
  unfold collected, answered in *. simpl.
  destruct (get_highest_rank_asn server o) as [[a c]|e]; simpl;
    now rewrite IH.
Qed.

Lemma diagnostics_names (server : api) (orgs : list string) :
  diagnostics server orgs =
  map diagnostic (filter (fun o => negb (answered server o)) orgs).
Proof.
  induction orgs as [|o orgs IH]; [reflexivity|].
  unfold diagnostics, answered in *. simpl.
  destruct (get_highest_rank_asn server o) as [[a c]|e]; simpl;
    now rewrite IH.
Qed.

(** X7. [main] returns normally exactly when every lookup that fails
    fails with an exception of class [ValueError]. *)
Theorem main_completes_iff (server : api) (k : sort_key) (d : direction)
    (out : list string) :
  fst (main server (metric_name k) (order_name d) out) = Ok tt <->
  (forall o e, In o ORGANIZATIONS ->
               get_highest_rank_asn server o = Raise e ->
               isinstance_ValueError e = true).
Proof.
  split.
  - intros H. unfold main, bind in H.
    destruct (aggregate server ORGANIZATIONS [] out) as [[rs|e] out'] eqn:E;
      [|discriminate].
    apply (aggregate_ok_inv _ _ _ _ _ _ E).
  - intros H. unfold main, bind.
    rewrite (aggregate_ValueError_only _ _ H).
    destruct (collected_results server ORGANIZATIONS) as [rs Hrs].
    cbn [app]. rewrite Hrs.
    unfold lift. rewrite sorting_asns_results, beautify_results. reflexivity.
Qed.

(** X8. [main] stops at the first organization whose lookup raises an
    exception outside [ValueError]: that exception leaves [main], and all
    that is printed is the diagnostics of the organizations before it that
    failed; no table is printed, whatever the later lookups would give. *)
Theorem main_aborts_at_first_uncaught (server : api) (sort_by order : string)
    (out : list string) (pre post : list string) (o : string) (e : exn) :
  ORGANIZATIONS = pre ++ o :: post ->
  (forall o' e', In o' pre -> get_highest_rank_asn server o' = Raise e' ->
                 isinstance_ValueError e' = true) ->
  get_highest_rank_asn server o = Raise e ->
  isinstance_ValueError e = false ->
  main server sort_by order out = (Raise e, out ++ diagnostics server pre).
Proof.
  intros Horgs Hpre He Hcls. unfold main, bind.
  rewrite Horgs, aggregate_app, (aggregate_ValueError_only _ _ Hpre).
  rewrite (aggregate_step_raise _ _ _ _ _ _ He), Hcls. reflexivity.
Qed.

Lemma main_aborts_at_first_uncaught_witness :
  ORGANIZATIONS = ["Zenlayer"] ++ "Equinix" :: ["Linode"; "Ionos"; "PhoenixNap"] /\
  get_highest_rank_asn outage_server "Equinix" = Raise ConnectionError /\
  main outage_server "cone_size" "descending" [] =
    (Raise ConnectionError, [] ++ diagnostics outage_server ["Zenlayer"]).
Proof.
  split; [reflexivity|]. split; [reflexivity|].
  apply (main_aborts_at_first_uncaught outage_server "cone_size" "descending"
           [] ["Zenlayer"] ["Linode"; "Ionos"; "PhoenixNap"] "Equinix"
           ConnectionError eq_refl).
  - intros o' e' [<-|[]] E. vm_compute in E. now injection E as <-.
  - reflexivity.
  - reflexivity.
Defined.

(** X9. When the loop ends normally, the results are the organizations
    whose lookup returned, each once and in the order of the list gone
    through, and the lines printed are the diagnostics of the others, in
    that order too. *)
Theorem aggregate_keeps_order (server : api) (orgs : list string)
    (out : list string) (results : list result_tuple) (out' : list string) :
  aggregate server orgs [] out = (Ok results, out') ->
  map organization_of results = filter (answered server) orgs /\
  out' = out ++ map diagnostic (filter (fun o => negb (answered server o)) orgs) /\
  (List.length results + (List.length out' - List.length out)
   = List.length orgs)%nat.
Proof.
  intros H. pose proof (aggregate_ok_inv _ _ _ _ _ _ H) as Hcls.
  rewrite (aggregate_ValueError_only _ _ Hcls) in H.
  injection H as <- <-. cbn [app].
  split; [apply collected_names|].
  split; [now rewrite diagnostics_names|].
  rewrite length_app.
  rewrite <- (length_map organization_of (collected server orgs)).
  rewrite collected_names, diagnostics_names, length_map.
  clear. induction orgs as [|o orgs IH]; simpl; [lia|].
  destruct (answered server o); simpl; lia.
Qed.

Lemma aggregate_keeps_order_witness :
  aggregate sample_server ORGANIZATIONS [] [] =
    (Ok (map to_tuple [("Equinix", 200, 232); ("Linode", 6949, 2);
                       ("PhoenixNap", 627, 61)]),
     [diagnostic "Zenlayer"; diagnostic "Ionos"]) /\
  map organization_of
      (map to_tuple [("Equinix", 200, 232); ("Linode", 6949, 2);
                     ("PhoenixNap", 627, 61)])
    = filter (answered sample_server) ORGANIZATIONS.
Proof.
  assert (H : aggregate sample_server ORGANIZATIONS [] [] =
    (Ok (map to_tuple [("Equinix", 200, 232); ("Linode", 6949, 2);
                       ("PhoenixNap", 627, 61)]),
     [diagnostic "Zenlayer"; diagnostic "Ionos"])) by reflexivity.
  split; [exact H|].
  exact (proj1 (aggregate_keeps_order sample_server ORGANIZATIONS [] _ _ H)).
Defined.

(** ** More on the sorter *)

Lemma existsb_Permutation {A} (f : A -> bool) (l l' : list A) :
  Permutation l l' -> existsb f l = existsb f l'.
Proof.
  induction 1; simpl; try congruence.
  - now destruct (f x), (f y).
Qed.

Section SortedOnTuples.
Variable index : nat.

Lemma insert_stable_ints (x : result_tuple) (l : list result_tuple) :
  key_is_None index x = false ->
  existsb (key_is_None index) l = false ->
  exists l', insert_stable (tuple_item index) x l = Ok l' /\
             Permutation (x :: l) l'.
Proof.
  unfold key_is_None. intros Hx. induction l as [|y l IH]; simpl; intros Hl.
  - now exists [x].
  - apply orb_false_iff in Hl. destruct Hl as [Hy Hl].
    destruct (tuple_item index x) as [|zx]; [discriminate|].
    destruct (tuple_item index y) as [|zy]; [discriminate|]. simpl.
    destruct (zy <? zx).
    + destruct (IH Hl) as (l' & -> & Hp). simpl. exists (y :: l'). split;
        [reflexivity|]. rewrite perm_swap. now constructor.
    + now exists (x :: y :: l).
Qed.

Lemma unorderable_cons2 (x y : result_tuple) (l : list result_tuple) :
  unorderable index (x :: y :: l) =
  key_is_None index x || existsb (key_is_None index) (y :: l).
Proof. reflexivity. Qed.

Lemma unorderable_false_None (y : result_tuple) (l : list result_tuple) :
  unorderable index (y :: l) = false ->
  existsb (key_is_None index) (y :: l) = true ->
  l = [] /\ tuple_item index y = PyNone.
Proof.
  destruct l as [|y' l].
  - intros _ H. split; [reflexivity|]. simpl in H. rewrite orb_false_r in H.
    unfold key_is_None in H. now destruct (tuple_item index y).
  - rewrite unorderable_cons2. intros H1 H2. simpl in H2.
    apply orb_false_iff in H1. destruct H1 as [H1 H1'].
    rewrite H1 in H2. simpl in H2. simpl in H1'. congruence.
Qed.

(** The stable sort raises [TypeError] when it has two entries or more
    and a key that is [None], and returns a permutation otherwise. *)
Lemma stable_sort_outcome (l : list result_tuple) :
  match stable_sort (tuple_item index) l with
  | Raise e => e = TypeError /\ unorderable index l = true
  | Ok s => unorderable index l = false /\ Permutation l s
  end.
Proof.
  induction l as [|x l IH]; [now split|].
  simpl stable_sort.
  destruct (stable_sort (tuple_item index) l) as [s|e]; cbn [rbind].
  - destruct IH as [Hc Hp]. destruct l as [|y l].
    + apply Permutation_nil in Hp. subst s. simpl. now split.
    + rewrite unorderable_cons2.
      destruct (existsb (key_is_None index) (y :: l)) eqn:Ey.
      * destruct (unorderable_false_None y l Hc Ey) as [-> Hy].
        apply Permutation_length_1_inv in Hp. subst s.
        simpl. rewrite Hy. simpl. split; [reflexivity|apply orb_true_r].
      * assert (Es : existsb (key_is_None index) s = false)
          by now rewrite <- (existsb_Permutation _ _ _ Hp).
        destruct (key_is_None index x) eqn:Ex.
        -- destruct s as [|s0 s];
             [apply Permutation_sym, Permutation_nil in Hp; discriminate|].
           simpl in Es. apply orb_false_iff in Es. destruct Es as [Es0 _].
           unfold key_is_None in Ex, Es0. simpl.
           destruct (tuple_item index s0); [discriminate|].
           destruct (tuple_item index x); [|discriminate]. simpl.
           now split.
        -- destruct (insert_stable_ints x s Ex Es) as (l' & -> & Hp').
           split; [reflexivity|]. rewrite <- Hp'. now constructor.
  - destruct IH as [-> Hc]. split; [reflexivity|].
    destruct l as [|y l]; [discriminate|].
    rewrite unorderable_cons2.
    unfold unorderable in Hc. apply andb_true_iff in Hc.
    destruct Hc as [_ ->]. apply orb_true_r.
Qed.

Lemma unorderable_rev (l : list result_tuple) :
  unorderable index (rev l) = unorderable index l.
Proof.
  unfold unorderable. rewrite length_rev.
  now rewrite (existsb_Permutation _ _ _ (Permutation_sym (Permutation_rev l))).
Qed.

Lemma py_sorted_outcome (l : list result_tuple) (reverse : bool) :
  match py_sorted (tuple_item index) l reverse with
  | Raise e => e = TypeError /\ unorderable index l = true
  | Ok s => unorderable index l = false /\ Permutation l s
  end.
Proof.
  unfold py_sorted. destruct reverse; [|apply stable_sort_outcome].
  pose proof (stable_sort_outcome (rev l)) as H.
  destruct (stable_sort (tuple_item index) (rev l)) as [s|e]; simpl;
    rewrite unorderable_rev in H; destruct H as [H1 H2]; split; auto.
  rewrite <- Permutation_rev, <- H2. apply Permutation_rev.
Qed.
End SortedOnTuples.

(** X10. On any list of result tuples, whatever the two strings passed,
    [sorting_asns] raises [TypeError] when the list has two tuples or more
    and the selected field of one of them is [None], and returns a
    permutation of the list in every other case; a [None] in the field not
    selected does no harm. *)
Theorem sorting_asns_TypeError_iff (results : list result_tuple)
    (metric order : string) :
  match sorting_asns results metric order with
  | Raise e =>
      e = TypeError /\
      unorderable (if String.eqb metric "asrank" then 1 else 2) results = true
  | Ok sorted_results =>
      unorderable (if String.eqb metric "asrank" then 1 else 2) results = false /\
      Permutation results sorted_results
  end.
Proof. unfold sorting_asns. apply py_sorted_outcome. Qed.

(** Two lists in the same order whose results of each key value are the
    same lists are equal. *)
Section SortedUnique.
Variable key : org_result -> Z.
Variable R : Z -> Z -> Prop.
Hypothesis R_antisym : forall a b, R a b -> R b a -> a = b.

Lemma filter_head_in (v : Z) (b : org_result) (t l : list org_result) :
  filter (fun r => key r =? v) l = b :: t -> In b l /\ key b = v.
Proof.
  intros H. assert (Hb : In b (filter (fun r => key r =? v) l))
    by (rewrite H; now left).
  apply filter_In in Hb. destruct Hb as [Hb Hk]. split; [exact Hb|].
  now apply Z.eqb_eq.
Qed.

Lemma sorted_unique (l1 : list org_result) :
  forall l2,
    StronglySorted R (map key l1) ->
    StronglySorted R (map key l2) ->
    (forall v, filter (fun r => key r =? v) l1
               = filter (fun r => key r =? v) l2) ->
    l1 = l2.
Proof.
  induction l1 as [|a t1 IH]; intros l2 H1 H2 Hf.
  - destruct l2 as [|b t2]; [reflexivity|].
    specialize (Hf (key b)). simpl in Hf. rewrite Z.eqb_refl in Hf.
    discriminate.
  - destruct l2 as [|b t2].
    + specialize (Hf (key a)). simpl in Hf. rewrite Z.eqb_refl in Hf.
      discriminate.
    + simpl in H1, H2. inversion H1 as [|? ? Hs1 Hall1]; subst.
      inversion H2 as [|? ? Hs2 Hall2]; subst.
      assert (Ek : key a = key b).
      { destruct (Z.eq_dec (key a) (key b)) as [E|N]; [exact E|].
        apply R_antisym.
        - pose proof (Hf (key b)) as Hb. simpl in Hb.
          rewrite Z.eqb_refl in Hb. apply Z.eqb_neq in N. rewrite N in Hb.
          apply filter_head_in in Hb. destruct Hb as [Hb _].
          rewrite Forall_forall in Hall1. apply Hall1. now apply in_map.
        - pose proof (Hf (key a)) as Ha. simpl in Ha.
          rewrite Z.eqb_refl in Ha.
          assert (N' : (key b =? key a) = false) by (apply Z.eqb_neq; congruence).
          rewrite N' in Ha. symmetry in Ha.
          apply filter_head_in in Ha. destruct Ha as [Ha _].
          rewrite Forall_forall in Hall2. apply Hall2. now apply in_map. }
      assert (Eab : a = b).
      { pose proof (Hf (key a)) as Ha. simpl in Ha.
        rewrite Z.eqb_refl, <- Ek, Z.eqb_refl in Ha. now injection Ha. }
      subst b. f_equal. apply IH; auto.
      intros v. specialize (Hf v). simpl in Hf.
      destruct (key a =? v); [now injection Hf|exact Hf].
Qed.
End SortedUnique.

Lemma in_order_unique (k : sort_key) (d : direction) (l1 l2 : list org_result) :
  in_order k d l1 -> in_order k d l2 ->
  (forall v, with_value k v l1 = with_value k v l2) ->
  l1 = l2.
Proof.
  destruct d; simpl; intros H1 H2 Hf.
  - apply (sorted_unique (selected_field k) Z.le); auto. intros; lia.
  - apply (sorted_unique (selected_field k) Z.ge); auto. intros; lia.
Qed.

(** With pairwise different keys there is one result per key value at
    most. *)
Lemma with_value_short (k : sort_key) (v : Z) (rs : list org_result) :
  NoDup (map (selected_field k) rs) ->
  rev (with_value k v rs) = with_value k v rs.
Proof.
  unfold with_value. induction rs as [|r rs IH]; simpl; intros H;
    [reflexivity|].
  inversion H as [|? ? Hnot Hnd]; subst.
  destruct (selected_field k r =? v) eqn:E; [|now apply IH].
  apply Z.eqb_eq in E.
  assert (Hnone : filter (fun r0 => selected_field k r0 =? v) rs = []).
  { destruct (filter (fun r0 => selected_field k r0 =? v) rs) as [|b t] eqn:Ef;
      [reflexivity|].
    apply filter_head_in in Ef. destruct Ef as [Hb Hk].
    exfalso. apply Hnot. rewrite E, <- Hk. now apply in_map. }
  now rewrite Hnone.
Qed.

(** X11. A sort by the same selector that went before leaves no trace:
    sorting the outcome of a first sort, in either direction, gives what
    sorting the original list gives. *)
Theorem sorting_asns_absorbs (k : sort_key) (d1 d2 : direction)
    (rs : list org_result) :
  exists first : list result_tuple,
    sorting_asns (map to_tuple rs) (metric_name k) (order_name d1) = Ok first /\
    sorting_asns first (metric_name k) (order_name d2) =
    sorting_asns (map to_tuple rs) (metric_name k) (order_name d2).
Proof.
  exists (map to_tuple (sorted_by k d1 rs)).
  split; [apply sorting_asns_results|].
  rewrite !sorting_asns_results. do 2 f_equal.
  apply (in_order_unique k d2); try apply sorted_by_in_order.
  intros v. now rewrite !sorted_by_with_value.
Qed.

(** X12. When the selected fields of the results are pairwise different,
    the descending order is the ascending order reversed. *)
Theorem sorting_asns_descending_is_reverse (k : sort_key)
    (rs : list org_result) :
  NoDup (map (selected_field k) rs) ->
  exists up : list org_result,
    sorting_asns (map to_tuple rs) (metric_name k) "ascending" =
      Ok (map to_tuple up) /\
    sorting_asns (map to_tuple rs) (metric_name k) "descending" =
      Ok (map to_tuple (rev up)).
Proof.
  intros Hnd. exists (sorted_by k ascending rs).
  split; [apply (sorting_asns_results k ascending)|].
  rewrite (sorting_asns_results k descending). do 2 f_equal.
  apply (in_order_unique k descending).
  - apply sorted_by_in_order.
  - simpl. rewrite map_rev. apply StronglySorted_rev_ge, sort_int_sorted.
  - intros v. rewrite sorted_by_with_value.
    unfold with_value at 2. rewrite filter_rev.
    fold (with_value k v (sorted_by k ascending rs)).
    rewrite sorted_by_with_value. symmetry. now apply with_value_short.
Qed.

Lemma sorting_asns_descending_is_reverse_witness :
  NoDup (map (selected_field cone_size)
           [("Linode", 6949, 2); ("Ionos", 725, 49); ("Equinix", 200, 232)]) /\
  exists up : list org_result,
    sorting_asns (map to_tuple [("Linode", 6949, 2); ("Ionos", 725, 49);
                                ("Equinix", 200, 232)])
      (metric_name cone_size) "ascending" = Ok (map to_tuple up) /\
    sorting_asns (map to_tuple [("Linode", 6949, 2); ("Ionos", 725, 49);
                                ("Equinix", 200, 232)])
      (metric_name cone_size) "descending" = Ok (map to_tuple (rev up)).
Proof.
  assert (H : NoDup (map (selected_field cone_size)
           [("Linode", 6949, 2); ("Ionos", 725, 49); ("Equinix", 200, 232)])).
  { simpl. repeat constructor; simpl; intuition discriminate. }
  split; [exact H|].
  apply (sorting_asns_descending_is_reverse cone_size _ H).
Defined.

(** ** More on the presenter *)

Lemma format_row_None (t : result_tuple) :
  snd (fst t) = PyNone \/ snd t = PyNone -> format_row t = Raise TypeError.
Proof.
  destruct t as [[o a] c]. simpl. intros [->| ->]; [reflexivity|].
  now destruct a.
Qed.

Lemma print_rows_stops (rs : list org_result) (t : result_tuple)
    (rest : list result_tuple) :
  format_row t = Raise TypeError ->
  forall out,
    print_rows (map to_tuple rs ++ t :: rest) out =
    (Raise TypeError, out ++ map row_line rs).
Proof.
  intros Ht. induction rs as [|r rs IH]; intros out; simpl.
  - unfold bind, lift. rewrite Ht. now rewrite app_nil_r.
  - unfold bind, lift, print. rewrite format_row_to_tuple, IH.
    now rewrite <- app_assoc.
Qed.

(** X13. A result with [None] for its rank or its cone size makes
    [beautify] raise [TypeError] when its row is due: the header, the rule
    and the rows of the results before it are printed by then, and nothing
    of the results after it. *)
Theorem beautify_stops_at_None (rs : list org_result) (t : result_tuple)
    (rest : list result_tuple) (out : list string) :
  snd (fst t) = PyNone \/ snd t = PyNone ->
  beautify (map to_tuple rs ++ t :: rest) out =
  (Raise TypeError, out ++ header_line :: rule_line :: map row_line rs).
Proof.
  intros Ht. unfold beautify, bind, print.
  rewrite (print_rows_stops rs t rest (format_row_None t Ht)).
  now rewrite <- !app_assoc.
Qed.

Lemma beautify_stops_at_None_witness :
  (snd (fst ("Ionos", PyInt 725, PyNone)) = PyNone
   \/ snd ("Ionos", PyInt 725, PyNone) = PyNone) /\
  beautify (map to_tuple [("Equinix", 200, 232)]
              ++ ("Ionos", PyInt 725, PyNone) :: [("Linode", PyInt 6949, PyInt 2)])
    [] =
  (Raise TypeError,
   [] ++ header_line :: rule_line :: map row_line [("Equinix", 200, 232)]).
Proof.
  split; [now right|].
  apply (beautify_stops_at_None [("Equinix", 200, 232)]
           ("Ionos", PyInt 725, PyNone) [("Linode", PyInt 6949, PyInt 2)] []).
  now right.
Defined.

(** X14. A row is never cut: the row of an Organization Result has the
    width of its three fields, each 10 or the length of its text when that
    is more, and of the two spaces between them; it is 32 characters wide
    when the name and the two decimals have 10 characters at most. *)
Theorem format_row_width (organization : string) (asrank_ conesize_ : Z) :
  exists line,
    format_row (to_tuple (organization, asrank_, conesize_)) = Ok line /\
    String.length line =
      (Nat.max 10 (String.length organization)
       + Nat.max 10 (String.length (decimal asrank_))
       + Nat.max 10 (String.length (decimal conesize_)) + 2)%nat /\
    ((String.length organization <= 10)%nat ->
     (String.length (decimal asrank_) <= 10)%nat ->
     (String.length (decimal conesize_) <= 10)%nat ->
     String.length line = 32%nat).
Proof.
  eexists. split; [reflexivity|].
  assert (E : String.length
                (format_str 10 organization ++ " "
                 ++ (spaces (10 - String.length (decimal asrank_))
                     ++ decimal asrank_) ++ " "
                 ++ (spaces (10 - String.length (decimal conesize_))
                     ++ decimal conesize_))%string
              = (Nat.max 10 (String.length organization)
                 + Nat.max 10 (String.length (decimal asrank_))
                 + Nat.max 10 (String.length (decimal conesize_)) + 2)%nat).
  { unfold format_str, spaces. rewrite !length_append, !length_str_mul.
    simpl String.length. lia. }
  split; [exact E|]. intros H1 H2 H3. rewrite E. lia.
Qed.
